(** * Oracle pipeline: the resolution engine

    A shallow embedding of [src/utils.ts] (winner determination, snapshot
    hashing, the typed blob hash) and of the batch driver of the oracle
    (createResolution, postResolution, processMarkets), followed by the
    properties the specification states about them.

    Conventions of the embedding.
    - A JavaScript [number] that the code uses as an integer (ranks, unix
      times, the winner) is a [Z]; [bigint] is a [Z] as well.  Where the
      library tells the two apart, the value says which it is.
    - A 0x-prefixed hex data string whose spelling does not matter (a hash,
      a market id, a signature) is the list of bytes it denotes.
    - An address is the string that spells it: the library checks the
      spelling.
    - Other strings are [string]; they stand for their UTF-8 bytes.
    - A thrown exception is a value of [thrown]; a function that may throw
      returns a [result].
    - Code that talks to the outside world (HTTP, the chain, the wallet) runs
      in the monad [M], which threads the state of the collaborators and
      records every outside call in a trace. *)

From Stdlib Require Import ZArith QArith Qround List Permutation Bool Lia.
From Stdlib Require Import DecimalString.
From Stdlib Require HexadecimalString.
From Stdlib.Strings Require Import String Ascii Byte.
Import ListNotations.
Open Scope Z_scope.

(* ================================================================== *)
(** * JavaScript built-ins used by the code *)
(* ================================================================== *)

Module JS.

(** What a [throw] carries: an instance of [Error] with its message, or any
    other value (for which [error instanceof Error] is false). *)
Inductive thrown : Type :=
| Error (message : string)
| NotAnError (shown : string).

Inductive result (A : Type) : Type :=
| Ok (a : A)
| Throw (t : thrown).
Arguments Ok {A} a.
Arguments Throw {A} t.

Definition bind {A B : Type} (r : result A) (k : A -> result B) : result B :=
  match r with
  | Ok a => k a
  | Throw t => Throw t
  end.

(** [s.includes(sub)] *)
Fixpoint includes (s sub : string) : bool :=
  if String.prefix sub s then true
  else match s with
       | EmptyString => false
       | String _ s' => includes s' sub
       end.

(** Template-literal rendering of an optional string property. *)
Definition show (o : option string) : string :=
  match o with
  | Some s => s
  | None => "undefined"
  end.

(** [String(n)] for an integer. *)
Definition show_int (n : Z) : string := NilZero.string_of_int (Z.to_int n).

(** Character codes, and the character classes that the regular
    expressions of the library name. *)
Definition code (c : ascii) : Z := Z.of_nat (nat_of_ascii c).

Definition in_range (lo hi : Z) (c : ascii) : bool :=
  (lo <=? code c) && (code c <=? hi).

Definition is_digit : ascii -> bool := in_range 48 57.
Definition is_upper : ascii -> bool := in_range 65 90.
Definition is_lower : ascii -> bool := in_range 97 122.
Definition is_hex_upper : ascii -> bool := in_range 65 70.
Definition is_hex_lower : ascii -> bool := in_range 97 102.

Definition is_hex (c : ascii) : bool :=
  is_digit c || is_hex_lower c || is_hex_upper c.

Definition is_alnum (c : ascii) : bool :=
  is_digit c || is_upper c || is_lower c.

(** [toLowerCase] and [toUpperCase] of one character.  The library applies
    them to strings of ASCII digits and letters only. *)
Definition toLowerCase (c : ascii) : ascii :=
  if is_upper c then ascii_of_nat (nat_of_ascii c + 32) else c.

Definition toUpperCase (c : ascii) : ascii :=
  if is_lower c then ascii_of_nat (nat_of_ascii c - 32) else c.

(** The value of a digit in a base up to 36, and the number a string of
    digits writes. *)
Definition digit_value (c : ascii) : Z :=
  if is_digit c then code c - 48
  else if is_lower c then code c - 87
  else if is_upper c then code c - 55
  else 0.

Definition number_in_base (base : Z) (digits : list ascii) : Z :=
  fold_left (fun acc c => acc * base + digit_value c) digits 0.

Definition is_digit_of (base : Z) (c : ascii) : bool :=
  is_alnum c && (digit_value c <? base).

(** White space and line terminators of ECMA-262, as UTF-8 bytes:
    [skip_space] drops them from the front of a string, [skip_space_rev]
    from the front of a reversed string. *)
Definition is_space1 (c : ascii) : bool :=
  let n := code c in
  (n =? 9) || (n =? 10) || (n =? 11) || (n =? 12) || (n =? 13) || (n =? 32).

Definition is_space2 (a b : ascii) : bool :=
  (code a =? 194) && (code b =? 160).

Definition is_space3 (a b c : ascii) : bool :=
  let '(x, y, z) := (code a, code b, code c) in
  ((x =? 225) && (y =? 154) && (z =? 128))
  || ((x =? 226) && (y =? 128)
      && (((128 <=? z) && (z <=? 138)) || (z =? 168) || (z =? 169) || (z =? 175)))
  || ((x =? 226) && (y =? 129) && (z =? 159))
  || ((x =? 227) && (y =? 128) && (z =? 128))
  || ((x =? 239) && (y =? 187) && (z =? 191)).

Fixpoint skip_space (l : list ascii) : list ascii :=
  match l with
  | a :: rest =>
      if is_space1 a then skip_space rest
      else match rest with
           | b :: rest2 =>
               if is_space2 a b then skip_space rest2
               else match rest2 with
                    | c :: rest3 =>
                        if is_space3 a b c then skip_space rest3 else l
                    | [] => l
                    end
           | [] => l
           end
  | [] => []
  end.

Fixpoint skip_space_rev (l : list ascii) : list ascii :=
  match l with
  | a :: rest =>
      if is_space1 a then skip_space_rev rest
      else match rest with
           | b :: rest2 =>
               if is_space2 b a then skip_space_rev rest2
               else match rest2 with
                    | c :: rest3 =>
                        if is_space3 c b a then skip_space_rev rest3 else l
                    | [] => l
                    end
           | [] => l
           end
  | [] => []
  end.

Definition trim (l : list ascii) : list ascii :=
  rev (skip_space_rev (rev (skip_space l))).

(** The digits of a literal in a base: at least one, all of the base. *)
Definition literal (base : Z) (digits : list ascii) : option Z :=
  match digits with
  | [] => None
  | _ => if forallb (is_digit_of base) digits
         then Some (number_in_base base digits) else None
  end.

(** [BigInt(s)] for a string (StringToBigInt): white space around an
    optionally signed decimal literal or an unsigned literal in base 16, 8
    or 2; nothing but white space is zero.  [None] is its SyntaxError. *)
Definition BigInt (s : string) : option Z :=
  match trim (list_ascii_of_string s) with
  | [] => Some 0
  | "+"%char :: digits => literal 10 digits
  | "-"%char :: digits => option_map Z.opp (literal 10 digits)
  | "0"%char :: x :: digits =>
      if (code x =? 120) || (code x =? 88) then literal 16 digits
      else if (code x =? 111) || (code x =? 79) then literal 8 digits
      else if (code x =? 98) || (code x =? 66) then literal 2 digits
      else literal 10 ("0"%char :: x :: digits)
  | digits => literal 10 digits
  end.

(** [new Date(ms).toISOString()]: the date is valid for at most 8.64e15
    milliseconds on either side of the epoch; outside, [toISOString] throws
    a RangeError.  Only the possible exception matters to the callers, which
    print the text. *)
Definition max_time_value : Z := 8640000000000000.

Definition toISOString (ms : Z) : result unit :=
  if (- max_time_value <=? ms) && (ms <=? max_time_value)
  then Ok tt
  else Throw (Error "Invalid time value").

Definition hex_digit (n : Z) : ascii :=
  nth (Z.to_nat n) (list_ascii_of_string "0123456789abcdef") "0"%char.

(** [JSON.stringify] of a string: quotes, with the escapes of ECMA-262
    QuoteJSONString on the ASCII range. *)
Definition dquote : ascii := ascii_of_nat 34.

Definition json_escape (c : ascii) : list ascii :=
  let n := Z.of_nat (nat_of_ascii c) in
  if n =? 34 then ["\"%char; dquote]
  else if n =? 92 then ["\"%char; "\"%char]
  else if n =? 8 then ["\"%char; "b"%char]
  else if n =? 9 then ["\"%char; "t"%char]
  else if n =? 10 then ["\"%char; "n"%char]
  else if n =? 12 then ["\"%char; "f"%char]
  else if n =? 13 then ["\"%char; "r"%char]
  else if n <? 32 then
    ["\"%char; "u"%char; "0"%char; "0"%char; hex_digit (n / 16); hex_digit (n mod 16)]
  else [c].

Definition json_string (s : string) : string :=
  string_of_list_ascii
    ([dquote] ++ flat_map json_escape (list_ascii_of_string s) ++ [dquote]).

Definition json_number (n : Z) : string := show_int n.

(** [Array.prototype.join] *)
Fixpoint join (sep : string) (l : list string) : string :=
  match l with
  | [] => EmptyString
  | [x] => x
  | x :: rest => x ++ sep ++ join sep rest
  end.

End JS.
Export JS.

Declare Scope result_scope.
Notation "x <-? c ;; k" := (JS.bind c (fun x => k))
  (at level 61, c at next level, right associativity) : result_scope.
Open Scope result_scope.

(* ================================================================== *)
(** * Keccak-256 *)
(* ================================================================== *)

(** [ethers.keccak256]: the Keccak-f[1600] sponge with rate 136 bytes, the
    original Keccak padding (domain byte 0x01) and a 32-byte output.  The
    state is the 25 lanes of 64 bits, lane (x, y) at index x + 5 y. *)
Module Keccak.

Definition w64 : Z := 2 ^ 64.

Definition mask64 : Z := w64 - 1.

Definition rotl64 (x : Z) (n : Z) : Z :=
  Z.lor (Z.land (Z.shiftl x n) mask64) (Z.shiftr x (64 - n)).

Definition not64 (x : Z) : Z := Z.lxor x mask64.

Definition lane (st : list Z) (x y : Z) : Z :=
  nth (Z.to_nat (x mod 5 + 5 * (y mod 5))) st 0.

Definition idx5 : list Z := [0; 1; 2; 3; 4].

Definition grid (f : Z -> Z -> Z) : list Z :=
  flat_map (fun y => map (fun x => f x y) idx5) idx5.

Definition round_constants : list Z :=
  [ 0x0000000000000001; 0x0000000000008082; 0x800000000000808A;
    0x8000000080008000; 0x000000000000808B; 0x0000000080000001;
    0x8000000080008081; 0x8000000000008009; 0x000000000000008A;
    0x0000000000000088; 0x0000000080008009; 0x000000008000000A;
    0x000000008000808B; 0x800000000000008B; 0x8000000000008089;
    0x8000000000008003; 0x8000000000008002; 0x8000000000000080;
    0x000000000000800A; 0x800000008000000A; 0x8000000080008081;
    0x8000000000008080; 0x0000000080000001; 0x8000000080008008 ].

Definition rotation_offsets : list Z :=
  [  0;  1; 62; 28; 27;
    36; 44;  6; 55; 20;
     3; 10; 43; 25; 39;
    41; 45; 15; 21;  8;
    18;  2; 61; 56; 14 ].

Definition pick (l : list Z) (x : Z) : Z := nth (Z.to_nat (x mod 5)) l 0.

Definition theta (st : list Z) : list Z :=
  let c := map (fun x => fold_left Z.lxor (map (fun y => lane st x y) idx5) 0)
               idx5 in
  let d := map (fun x => Z.lxor (pick c (x - 1)) (rotl64 (pick c (x + 1)) 1))
               idx5 in
  grid (fun x y => Z.lxor (lane st x y) (pick d x)).

(** rho and pi together: the lane at (x, y), rotated, moves to
    (y, 2x + 3y); read from the target (tx, ty), the source is
    x = tx + 3 ty, y = tx. *)
Definition rho_pi (st : list Z) : list Z :=
  grid (fun tx ty =>
          let x := (tx + 3 * ty) mod 5 in
          let y := tx in
          rotl64 (lane st x y) (lane rotation_offsets x y)).

Definition chi (st : list Z) : list Z :=
  grid (fun x y =>
          Z.lxor (lane st x y)
                 (Z.land (not64 (lane st (x + 1) y)) (lane st (x + 2) y))).

Definition iota (rc : Z) (st : list Z) : list Z :=
  match st with
  | [] => []
  | a :: rest => Z.lxor a rc :: rest
  end.

Definition keccak_round (st : list Z) (rc : Z) : list Z :=
  iota rc (chi (rho_pi (theta st))).

Definition keccak_f (st : list Z) : list Z :=
  fold_left keccak_round round_constants st.

Definition rate : Z := 136.

Fixpoint xor_lane (st : list Z) (i : nat) (v : Z) : list Z :=
  match st, i with
  | [], _ => []
  | a :: rest, O => Z.lxor a v :: rest
  | a :: rest, S i' => a :: xor_lane rest i' v
  end.

Definition xor_byte (st : list Z) (pos : Z) (b : Z) : list Z :=
  xor_lane st (Z.to_nat (pos / 8)) (Z.shiftl b (8 * (pos mod 8))).

Definition Z_of_byte (b : byte) : Z := Z.of_N (Byte.to_N b).

Definition byte_of_Z (z : Z) : byte :=
  match Byte.of_N (Z.to_N (Z.land z 255)) with
  | Some b => b
  | None => x00
  end.

Definition absorb (acc : list Z * Z) (b : byte) : list Z * Z :=
  let '(st, pos) := acc in
  let st' := xor_byte st pos (Z_of_byte b) in
  if pos + 1 =? rate then (keccak_f st', 0) else (st', pos + 1).

Definition lane_bytes (l : Z) : list byte :=
  map (fun i => byte_of_Z (Z.shiftr l (8 * i))) [0; 1; 2; 3; 4; 5; 6; 7].

Definition squeeze (st : list Z) : list byte :=
  lane_bytes (lane st 0 0) ++ lane_bytes (lane st 1 0)
  ++ lane_bytes (lane st 2 0) ++ lane_bytes (lane st 3 0).

Definition sponge256 (domain : Z) (msg : list byte) : list byte :=
  let '(st, pos) := fold_left absorb msg (repeat 0 25, 0) in
  let st := xor_byte st pos domain in
  let st := xor_byte st (rate - 1) 0x80 in
  squeeze (keccak_f st).

Definition keccak256 : list byte -> list byte := sponge256 0x01.

End Keccak.

(* ================================================================== *)
(** * The parts of ethers the code calls *)
(* ================================================================== *)

Module Ethers.

Import Keccak.

Definition keccak256 (data : list byte) : list byte := Keccak.keccak256 data.
Arguments keccak256 : simpl never.

Definition toUtf8Bytes (s : string) : list byte := list_byte_of_string s.

(** [ethers.hexlify]: the hex data string of some bytes. *)
Definition hexlify (d : list byte) : string :=
  ("0x" ++ string_of_list_ascii
             (flat_map (fun b => [hex_digit (Z_of_byte b / 16);
                                  hex_digit (Z_of_byte b mod 16)]) d))%string.

(** Big-endian bytes of a number, on [n] bytes, and back. *)
Fixpoint be_bytes (n : nat) (v : Z) : list byte :=
  match n with
  | O => []
  | S n' => be_bytes n' (v / 256) ++ [byte_of_Z v]
  end.

Definition be_value (d : list byte) : Z :=
  fold_left (fun acc b => acc * 256 + Z_of_byte b) d 0.

(** [ethers.getBytes] of a string: 0x (in either case) and pairs of hex
    digits. *)
Fixpoint hex_pairs (digits : list ascii) : option (list byte) :=
  match digits with
  | [] => Some []
  | h :: l :: rest =>
      if is_hex h && is_hex l
      then option_map (cons (byte_of_Z (digit_value h * 16 + digit_value l)))
                      (hex_pairs rest)
      else None
  | _ => None
  end.

Definition getBytes (value : string) : result (list byte) :=
  match list_ascii_of_string value with
  | "0"%char :: x :: digits =>
      if (code x =? 120) || (code x =? 88) then
        match hex_pairs digits with
        | Some d => Ok d
        | None => Throw (Error "invalid BytesLike value")
        end
      else Throw (Error "invalid BytesLike value")
  | _ => Throw (Error "invalid BytesLike value")
  end.

(** The static ABI types the code uses, and the values it passes for them:
    strings, numbers and bigints.  [Hex d] is the hex data string of the
    bytes [d], as [keccak256] returns it. *)
Inductive abi_type : Type :=
| bytes32
| uint (bits : Z)
| address.

Inductive abi_value : Type :=
| Str (s : string)
| Num (n : Z)
| Big (n : Z).

Definition Hex (data : list byte) : abi_value := Str (hexlify data).

Definition type_of_name (s : string) : result abi_type :=
  if (s =? "bytes32")%string then Ok bytes32
  else if (s =? "uint8")%string then Ok (uint 8)
  else if (s =? "uint64")%string then Ok (uint 64)
  else if (s =? "uint256")%string then Ok (uint 256)
  else if (s =? "address")%string then Ok address
  else Throw (Error "invalid type").

(** [getBigInt]: a bigint is itself; a number must be a safe integer; a
    string is read by [BigInt], a leading minus sign apart. *)
Definition max_safe_integer : Z := 2 ^ 53 - 1.

Definition getBigInt (v : abi_value) : result Z :=
  match v with
  | Big n => Ok n
  | Num n =>
      if (- max_safe_integer <=? n) && (n <=? max_safe_integer) then Ok n
      else Throw (Error "overflow")
  | Str s =>
      let parsed :=
        match s with
        | EmptyString => None
        | String c rest =>
            if (code c =? 45)
               && negb (match rest with
                        | String c2 _ => code c2 =? 45
                        | EmptyString => false
                        end)
            then option_map Z.opp (BigInt rest)
            else BigInt s
        end in
      match parsed with
      | Some n => Ok n
      | None => Throw (Error "invalid BigNumberish string")
      end
  end.

(** [Writer.writeValue]: a number on one 32-byte word. *)
Definition writeValue (n : Z) : result (list byte) :=
  if n <? 0 then Throw (Error "unsigned value cannot be negative")
  else if 2 ^ 256 <=? n then Throw (Error "value out-of-bounds")
  else Ok (be_bytes 32 n).

(** [getChecksumAddress] of a string that starts with 0x: the digits in
    lower case, a letter among the first forty in upper case where the
    nibble of the same index of the keccak256 hash of the forty lower-case
    digits is 8 or more (EIP-55). *)
Definition nibbles (d : list byte) : list Z :=
  flat_map (fun b => [Z_of_byte b / 16; Z_of_byte b mod 16]) d.

Fixpoint checksum_case (chars : list ascii) (ns : list Z) : list ascii :=
  match chars, ns with
  | c :: chars', n :: ns' =>
      (if 8 <=? n then toUpperCase c else c) :: checksum_case chars' ns'
  | _, _ => chars
  end.

Definition getChecksumAddress (chars : list ascii) : list ascii :=
  let chars := skipn 2 (map toLowerCase chars) in
  let expanded := map byte_of_ascii (firstn 40 chars) in
  let hashed := keccak256 expanded in
  "0"%char :: "x"%char :: checksum_case chars (nibbles (firstn 20 hashed)).

(** The two spellings [getAddress] takes: forty hex digits, with or
    without 0x in front, and the ICAP form XE, two check digits and thirty
    or thirty-one digits in base 36. *)
Definition strip_0x (chars : list ascii) : list ascii :=
  match chars with
  | "0"%char :: "x"%char :: rest => rest
  | _ => chars
  end.

Definition hex40 (digits : list ascii) : bool :=
  (List.length digits =? 40)%nat && forallb is_hex digits.

Definition mixed_case (chars : list ascii) : bool :=
  existsb is_hex_upper chars && existsb is_hex_lower chars.

Definition icap_shape (chars : list ascii) : bool :=
  match chars with
  | "X"%char :: "E"%char :: d1 :: d2 :: rest =>
      is_digit d1 && is_digit d2 && forallb is_alnum rest
      && ((List.length rest =? 30) || (List.length rest =? 31))%nat
  | _ => false
  end.

(** [ibanChecksum]: the digits after the first four, then XE and 00, every
    letter written as its two-digit value, read as one decimal number; the
    check digits are 98 minus that number modulo 97, on two digits.  (The
    library takes the remainder block by block.) *)
Definition two_digits (n : Z) : list ascii :=
  [hex_digit (n / 10); hex_digit (n mod 10)].

Definition iban_expand (c : ascii) : list ascii :=
  if is_digit c then [c] else two_digits (digit_value c).

Definition ibanChecksum (chars : list ascii) : list ascii :=
  let address := map toUpperCase chars in
  let address := skipn 4 address ++ firstn 2 address ++ ["0"; "0"]%char in
  let expanded := flat_map iban_expand address in
  two_digits (98 - number_in_base 10 expanded mod 97).

(** [n.toString(16)], padded with zeros to forty digits. *)
Definition toString16 (n : Z) : list ascii :=
  list_ascii_of_string
    (HexadecimalString.NilZero.string_of_uint (N.to_hex_uint (Z.to_N n))).

Definition pad40 (digits : list ascii) : list ascii :=
  repeat "0"%char (40 - List.length digits) ++ digits.

Definition getAddress (address : string) : result string :=
  let chars := list_ascii_of_string address in
  if hex40 (strip_0x chars) then
    let chars := "0"%char :: "x"%char :: strip_0x chars in
    let result := getChecksumAddress chars in
    if mixed_case chars
       && negb (string_of_list_ascii result =? string_of_list_ascii chars)%string
    then Throw (Error "bad address checksum")
    else Ok (string_of_list_ascii result)
  else if icap_shape chars then
    if negb (string_of_list_ascii (firstn 2 (skipn 2 chars))
             =? string_of_list_ascii (ibanChecksum chars))%string
    then Throw (Error "bad icap checksum")
    else
      let result :=
        toString16 (number_in_base 36 (map toLowerCase (skipn 4 chars))) in
      Ok (string_of_list_ascii
            (getChecksumAddress ("0"%char :: "x"%char :: pad40 result)))
  else Throw (Error "invalid address").

(** One coder per type; every static value fills one 32-byte word.  The
    messages are the leading text of the library's (it appends the argument
    and the library version). *)
Definition encode_word (t : abi_type) (v : abi_value) : result (list byte) :=
  match t with
  | bytes32 =>
      match v with
      | Str s =>
          d <-? getBytes s ;;
          if (List.length d =? 32)%nat then Ok d
          else Throw (Error "incorrect data length")
      | _ => Throw (Error "invalid BytesLike value")
      end
  | uint bits =>
      n <-? getBigInt v ;;
      if (0 <=? n) && (n <? 2 ^ bits) then Ok (be_bytes 32 n)
      else Throw (Error "value out-of-bounds")
  | address =>
      match v with
      | Str s =>
          a <-? getAddress s ;;
          n <-? getBigInt (Str a) ;;
          writeValue n
      | _ => Throw (Error "invalid address")
      end
  end.

Fixpoint encode_words (ts : list abi_type) (vs : list abi_value)
  : result (list byte) :=
  match ts, vs with
  | t :: ts', v :: vs' =>
      w <-? encode_word t v ;;
      rest <-? encode_words ts' vs' ;;
      Ok (w ++ rest)
  | _, _ => Ok []
  end.

Fixpoint types_of_names (names : list string) : result (list abi_type) :=
  match names with
  | [] => Ok []
  | s :: rest =>
      t <-? type_of_name s ;;
      ts <-? types_of_names rest ;;
      Ok (t :: ts)
  end.

(** [AbiCoder.defaultAbiCoder().encode(types, values)] *)
Definition AbiCoder_encode (types : list string) (values : list abi_value)
  : result (list byte) :=
  if negb (List.length types =? List.length values)%nat
  then Throw (Error "types/values length mismatch")
  else
    ts <-? types_of_names types ;;
    encode_words ts values.

End Ethers.

(* ================================================================== *)
(** * Data model *)
(* ================================================================== *)

Definition bytes : Type := list byte.

(** [config.ts], interface ContractAddresses *)
Module ContractAddresses.
Record t : Type := mk {
  settlementOracle : string;
  marketFactory : string;
  stakeToken : string
}.
End ContractAddresses.

(** [config.ts], interface MarketConfig; a property marked [?] is an
    option.  [type] is the string the API sent: the code compares it with
    "top10" and "h2h" and has a branch for anything else.  A market id that
    is present is a hex data string, which is never the empty string, so
    that [!market.marketId] holds exactly when the id is [None]. *)
Module MarketConfig.
Record t : Type := mk {
  type : string;
  projectName : option string;
  projectA : option string;
  projectB : option string;
  lockTime : Z;
  resolveTime : Z;
  questionHash : string;
  marketId : option bytes;
  marketAddress : option bytes
}.

Definition with_marketId (m : t) (id : bytes) : t :=
  mk (type m) (projectName m) (projectA m) (projectB m) (lockTime m)
     (resolveTime m) (questionHash m) (Some id) (marketAddress m).
End MarketConfig.

(** [utils.ts], interface Project.  The code compares ranks and only
    serializes scores; both are taken to be integers. *)
Module Project.
Record t : Type := mk {
  name : string;
  rank : Z;
  score : Z;
  logo : string
}.
End Project.

(** The object [determineWinner] returns. *)
Module Determined.
Record t : Type := mk {
  winner : Z;
  snapshotHash : bytes
}.
End Determined.

(** interface Resolution of the batch driver *)
Module Resolution.
Record t : Type := mk {
  marketId : bytes;
  winner : Z;
  snapshotHash : bytes;
  resolvedAt : Z;
  challengeUntil : Z;
  nonce : Z
}.
End Resolution.

(** The [config] object of [config.ts], after the defaults were applied.
    Its [contracts] entry, read from config/contracts.json, is the first
    value of [cachedContracts] in the state of a run. *)
Module AppConfig.
Record t : Type := mk {
  rpcUrl : string;
  privateKey : string;
  apiBaseUrl : string
}.
End AppConfig.

(* ================================================================== *)
(** * The outside world *)
(* ================================================================== *)

(** The six fields [postResolution] hands to the contract, in its order:
    marketId, winner, snapshotHash, resolvedAt, challengeUntil, nonce. *)
Definition resolution_tuple : Type := (bytes * Z * bytes * Z * Z * Z)%type.

(** What an HTTP [fetch] resolves to, as far as the code looks at it. *)
Module Http.
Record response (A : Type) : Type := mk {
  ok : bool;
  statusText : string;
  json : result A
}.
Arguments mk {A} ok statusText json.
Arguments ok {A} r.
Arguments statusText {A} r.
Arguments json {A} r.
End Http.

(** Every call that leaves the process, and what the process prints on
    stderr and as its final summary.  The informational [console.log] lines
    are not recorded. *)
Inductive event : Type :=
| Fetch (path : string)
| GetBlock
| ReadClock
| CallComputeMarketId (factory : string) (questionHash : string) (lockTime : Z)
| SignMessage (digest : bytes)
| CallPost (oracle : string) (resolution : resolution_tuple) (signature : bytes)
| WaitReceipt (txHash : string)
| ConsoleError (text : string) (t : thrown)
| Summary (processed skipped : Z).

(** The collaborators: configuration, HTTP API, chain provider, wallet and
    the two contracts.  [W] is their state; each operation may throw. *)
Record Env (W : Type) : Type := {
  config : AppConfig.t;
  new_Wallet : string -> result unit;
  fetch_contracts : W -> result (Http.response (list (string * string))) * W;
  fetch_leaderboard : W -> result (Http.response (list Project.t)) * W;
  fetch_markets : W -> result (Http.response (list MarketConfig.t)) * W;
  provider_getBlock : W -> result (option Z) * W;
  Date_now : W -> Z;
  factory_computeMarketId : string -> string -> Z -> W -> result bytes * W;
  signer_signMessage : bytes -> W -> result bytes * W;
  oracle_post : string -> resolution_tuple -> bytes -> W -> result string * W;
  tx_wait : string -> W -> result unit * W
}.
Arguments config {W} e.
Arguments new_Wallet {W} e.
Arguments fetch_contracts {W} e.
Arguments fetch_leaderboard {W} e.
Arguments fetch_markets {W} e.
Arguments provider_getBlock {W} e.
Arguments Date_now {W} e.
Arguments factory_computeMarketId {W} e.
Arguments signer_signMessage {W} e.
Arguments oracle_post {W} e.
Arguments tx_wait {W} e.

(** The state a run threads: the collaborators' state, the module-level
    [cachedContracts] of [config.ts], and the trace of events so far. *)
Record State (W : Type) : Type := mkState {
  world : W;
  cachedContracts : option ContractAddresses.t;
  trace : list event
}.
Arguments mkState {W} world cachedContracts trace.
Arguments world {W} s.
Arguments cachedContracts {W} s.
Arguments trace {W} s.

Definition M (W A : Type) : Type := State W -> result A * State W.

Section Monad.
Context {W : Type}.

Definition ret {A} (a : A) : M W A := fun s => (Ok a, s).

Definition throw {A} (t : thrown) : M W A := fun s => (Throw t, s).

Definition mbind {A B} (c : M W A) (k : A -> M W B) : M W B :=
  fun s =>
    match c s with
    | (Ok a, s') => k a s'
    | (Throw t, s') => (Throw t, s')
    end.

(** A pure computation that may throw. *)
Definition lift {A} (r : result A) : M W A := fun s => (r, s).

Definition log (e : event) : M W unit :=
  fun s => (Ok tt, mkState (world s) (cachedContracts s) (trace s ++ [e])).

(** A call to a collaborator: the event is recorded, then the call runs. *)
Definition outside {A} (e : event) (op : W -> result A * W) : M W A :=
  fun s =>
    let '(r, w') := op (world s) in
    (r, mkState w' (cachedContracts s) (trace s ++ [e])).

Definition get_cachedContracts : M W (option ContractAddresses.t) :=
  fun s => (Ok (cachedContracts s), s).

Definition set_cachedContracts (c : ContractAddresses.t) : M W unit :=
  fun s => (Ok tt, mkState (world s) (Some c) (trace s)).

(** [try { body } catch (error) { handler }]: what the body did before it
    threw stays done. *)
Definition try_catch {A} (body : M W A) (handler : thrown -> M W A) : M W A :=
  fun s =>
    match body s with
    | (Ok a, s') => (Ok a, s')
    | (Throw t, s') => handler t s'
    end.

End Monad.

Declare Scope monad_scope.
Notation "x <- c ;; k" := (mbind c (fun x => k))
  (at level 61, c at next level, right associativity) : monad_scope.
Notation "' pat <- c ;; k" := (mbind c (fun x => match x with pat => k end))
  (at level 61, pat pattern, c at next level, right associativity) : monad_scope.
Open Scope monad_scope.

(* ================================================================== *)
(** * utils.ts *)
(* ================================================================== *)

Import Ethers.

(** [a[i] = v] on an array, for an index inside it. *)
Fixpoint set_index {T : Type} (a : list T) (i : nat) (v : T) : list T :=
  match a, i with
  | [], _ => []
  | _ :: rest, O => v :: rest
  | x :: rest, S i' => x :: set_index rest i' v
  end.

(** [[a[i], a[j]] = [a[j], a[i]]]: both elements are read, then [a[i]] and
    [a[j]] are written, in this order.  Both indices are inside the array
    wherever the code swaps; outside, this model leaves the array alone. *)
Definition swap {T : Type} (a : list T) (i j : nat) : list T :=
  match nth_error a i, nth_error a j with
  | Some ai, Some aj => set_index (set_index a i aj) j ai
  | _, _ => a
  end.

(** [Math.floor(r * (i + 1))] for a value [r] of [Math.random()].  The
    values of [Math.random()] are taken as rationals, and [random k] is the
    value of the call number [k]. *)
Definition random_index (r : Q) (i : nat) : nat :=
  Z.to_nat (Qfloor (r * inject_Z (Z.of_nat (i + 1)))).

(** [for (let i = ...; i > 0; i--)] of [shuffleArray], from index [i] down,
    when [calls] values of [Math.random()] were used before. *)
Fixpoint shuffle_loop {T : Type} (random : nat -> Q) (calls : nat) (i : nat)
    (shuffled : list T) : list T :=
  match i with
  | O => shuffled
  | S i' =>
      let j := random_index (random calls) i in
      shuffle_loop random (S calls) i' (swap shuffled i j)
  end.

Definition shuffleArray {T : Type} (random : nat -> Q) (array : list T)
  : list T :=
  let shuffled := array in
  shuffle_loop random 0 (List.length shuffled - 1) shuffled.

(** [shuffled.map((project, index) => ({...project, rank: index + 1}))],
    from index [index] on. *)
Fixpoint rerank (index : nat) (shuffled : list Project.t) : list Project.t :=
  match shuffled with
  | [] => []
  | project :: rest =>
      Project.mk (Project.name project) (Z.of_nat index + 1)
                 (Project.score project) (Project.logo project)
      :: rerank (S index) rest
  end.

Definition randomizeLeaderboard (random : nat -> Q)
    (leaderboard : list Project.t) : list Project.t :=
  let shuffled := shuffleArray random leaderboard in
  rerank 0 shuffled.

(** [JSON.stringify] of a leaderboard: an array of objects whose keys are
    those of interface Project, in its order. *)
Definition stringify_Project (p : Project.t) : string :=
  ("{" ++ json_string "name" ++ ":" ++ json_string (Project.name p)
   ++ "," ++ json_string "rank" ++ ":" ++ json_number (Project.rank p)
   ++ "," ++ json_string "score" ++ ":" ++ json_number (Project.score p)
   ++ "," ++ json_string "logo" ++ ":" ++ json_string (Project.logo p)
   ++ "}")%string.

Definition JSON_stringify (leaderboard : list Project.t) : string :=
  ("[" ++ join "," (map stringify_Project leaderboard) ++ "]")%string.

Definition hashJson (json : string) : bytes :=
  keccak256 (toUtf8Bytes json).

(** [p.name === x] where [x] may be undefined. *)
Definition name_is (x : option string) (p : Project.t) : bool :=
  match x with
  | Some s => (Project.name p =? s)%string
  | None => false
  end.

Definition determineWinner (market : MarketConfig.t)
    (randomizedLeaderboard : list Project.t) : result Determined.t :=
  let snapshotJson := JSON_stringify randomizedLeaderboard in
  let snapshotHash := hashJson snapshotJson in
  if (MarketConfig.type market =? "top10")%string then
    match find (name_is (MarketConfig.projectName market)) randomizedLeaderboard with
    | None =>
        Throw (Error ("Project " ++ show (MarketConfig.projectName market)
                      ++ " not found in leaderboard"))
    | Some project =>
        let winner := if Project.rank project <=? 10 then 1 else 2 in
        Ok (Determined.mk winner snapshotHash)
    end
  else if (MarketConfig.type market =? "h2h")%string then
    let projectA := find (name_is (MarketConfig.projectA market)) randomizedLeaderboard in
    let projectB := find (name_is (MarketConfig.projectB market)) randomizedLeaderboard in
    match projectA, projectB with
    | Some a, Some b =>
        let winner := if Project.rank a <? Project.rank b then 1 else 2 in
        Ok (Determined.mk winner snapshotHash)
    | _, _ =>
        Throw (Error ("Projects not found: " ++ show (MarketConfig.projectA market)
                      ++ " or " ++ show (MarketConfig.projectB market)))
    end
  else Throw (Error ("Unknown market type: " ++ MarketConfig.type market)).

Definition Resolve_schema : string :=
  "Resolve(bytes32 marketId,uint8 winner,bytes32 snapshotHash,uint64 resolvedAt,uint64 challengeUntil,uint256 nonce,address this)".

Definition generateBlobHash (marketId : bytes) (winner : Z)
    (snapshotHash : bytes) (resolvedAt challengeUntil nonce : Z)
    (oracleAddress : string) : result bytes :=
  let typeHash := keccak256 (toUtf8Bytes Resolve_schema) in
  encoded <-? AbiCoder_encode
    ["bytes32"; "bytes32"; "uint8"; "bytes32"; "uint64"; "uint64"; "uint256"; "address"]%string
    [ Hex typeHash;
      Hex marketId;
      Num winner;
      Hex snapshotHash;
      Num resolvedAt;
      Num challengeUntil;
      Big nonce;
      Str oracleAddress ] ;;
  Ok (keccak256 encoded).
Arguments generateBlobHash : simpl never.

(* ================================================================== *)
(** * config.ts and the batch driver *)
(* ================================================================== *)

Record Counters : Type := mkCounters {
  processed : Z;
  skipped : Z
}.

(** [Partial<ContractAddresses>] *)
Module PartialContracts.
Record t : Type := mk {
  settlementOracle : option string;
  marketFactory : option string;
  stakeToken : option string
}.

Definition of_cached (c : option ContractAddresses.t) : t :=
  match c with
  | Some c =>
      mk (Some (ContractAddresses.settlementOracle c))
         (Some (ContractAddresses.marketFactory c))
         (Some (ContractAddresses.stakeToken c))
  | None => mk None None None
  end.

Definition assign (m : t) (entry : string * string) : t :=
  let '(ty, addr) := entry in
  let m := if (ty =? "settlementOracle")%string
           then mk (Some addr) (marketFactory m) (stakeToken m) else m in
  let m := if (ty =? "marketFactory")%string
           then mk (settlementOracle m) (Some addr) (stakeToken m) else m in
  let m := if (ty =? "stakeToken")%string
           then mk (settlementOracle m) (marketFactory m) (Some addr) else m in
  m.

Definition complete (m : t) : option ContractAddresses.t :=
  match settlementOracle m, marketFactory m, stakeToken m with
  | Some a, Some b, Some c => Some (ContractAddresses.mk a b c)
  | _, _, _ => None
  end.
End PartialContracts.

Section Program.
Context {W : Type} (env : Env W).

(** ** config.ts *)

Definition getSigner : M W unit :=
  if (AppConfig.privateKey (config env) =? EmptyString)%string
  then throw (Error "PRIVATE_KEY not set in environment variables")
  else lift (new_Wallet env (AppConfig.privateKey (config env))).

Definition getContracts : M W ContractAddresses.t :=
  _ <- (if negb (AppConfig.apiBaseUrl (config env) =? EmptyString)%string then
          try_catch
            (response <- outside (Fetch "/api/contracts") (fetch_contracts env) ;;
             if Http.ok response then
               data <- lift (Http.json response) ;;
               cached <- get_cachedContracts ;;
               let contractsMap :=
                 fold_left PartialContracts.assign data
                           (PartialContracts.of_cached cached) in
               match PartialContracts.complete contractsMap with
               | Some c => set_cachedContracts c
               | None => ret tt
               end
             else ret tt)
            (fun error =>
               log (ConsoleError
                      "Failed to fetch contracts from API, using local config"
                      error))
        else ret tt) ;;
  cached <- get_cachedContracts ;;
  match cached with
  | None => throw (Error "Contract addresses not configured")
  | Some c => ret c
  end.

(** ** The batch driver *)

Definition loadLeaderboardSnapshot : M W (list Project.t) :=
  response <- outside (Fetch "/api/leaderboard/today") (fetch_leaderboard env) ;;
  if negb (Http.ok response)
  then throw (Error ("Failed to load leaderboard: " ++ Http.statusText response))
  else lift (Http.json response).

Definition loadMarkets : M W (list MarketConfig.t) :=
  response <- outside (Fetch "/api/markets") (fetch_markets env) ;;
  if negb (Http.ok response)
  then throw (Error ("Failed to load markets: " ++ Http.statusText response))
  else lift (Http.json response).

Definition computeMarketId (questionHash : string) (lockTime : Z) : M W bytes :=
  _ <- getSigner ;;
  contracts <- getContracts ;;
  let factory := ContractAddresses.marketFactory contracts in
  outside (CallComputeMarketId factory questionHash lockTime)
          (factory_computeMarketId env factory questionHash lockTime).

Definition createResolution (market : MarketConfig.t)
    (randomizedLeaderboard : list Project.t) (blockTimestamp : Z)
  : M W (Resolution.t * bytes) :=
  match MarketConfig.marketId market with
  | None =>
      throw (Error ("Market ID not set for market: "
                    ++ MarketConfig.questionHash market))
  | Some marketId =>
      d <- lift (determineWinner market randomizedLeaderboard) ;;
      let resolvedAt := blockTimestamp in
      let challengeUntil := 0 in
      let nonce := resolvedAt in
      let resolution :=
        Resolution.mk marketId (Determined.winner d) (Determined.snapshotHash d)
                      resolvedAt challengeUntil nonce in
      _ <- getSigner ;;
      contracts <- getContracts ;;
      let oracleAddress := ContractAddresses.settlementOracle contracts in
      blob <- lift (generateBlobHash
                      (Resolution.marketId resolution)
                      (Resolution.winner resolution)
                      (Resolution.snapshotHash resolution)
                      (Resolution.resolvedAt resolution)
                      (Resolution.challengeUntil resolution)
                      (Resolution.nonce resolution)
                      oracleAddress) ;;
      signature <- outside (SignMessage blob) (signer_signMessage env blob) ;;
      ret (resolution, signature)
  end.

Definition postResolution (resolution : Resolution.t) (signature : bytes)
  : M W unit :=
  _ <- getSigner ;;
  contracts <- getContracts ;;
  let oracle := ContractAddresses.settlementOracle contracts in
  let resolutionTuple :=
    (Resolution.marketId resolution,
     Resolution.winner resolution,
     Resolution.snapshotHash resolution,
     Resolution.resolvedAt resolution,
     Resolution.challengeUntil resolution,
     Resolution.nonce resolution) in
  tx <- outside (CallPost oracle resolutionTuple signature)
                (oracle_post env oracle resolutionTuple signature) ;;
  outside (WaitReceipt tx) (tx_wait env tx).

(** What runs for a market once the time gate let it through: the
    statements of the loop body after the [if (blockTimestamp <
    market.resolveTime)] block. *)
Definition resolveReady (leaderboardSnapshot : list Project.t)
    (blockTimestamp : Z) (market : MarketConfig.t) (c : Counters)
  : M W Counters :=
  market <- match MarketConfig.marketId market with
            | None =>
                id <- computeMarketId (MarketConfig.questionHash market)
                                      (MarketConfig.lockTime market) ;;
                ret (MarketConfig.with_marketId market id)
            | Some _ => ret market
            end ;;
  '(resolution, signature) <-
    createResolution market leaderboardSnapshot blockTimestamp ;;
  _ <- lift (toISOString (Resolution.resolvedAt resolution * 1000)) ;;
  _ <- postResolution resolution signature ;;
  ret (mkCounters (processed c + 1) (skipped c)).

(** The body of the [try] block for one market.  The dates it formats for
    the log are kept, because [toISOString] throws on an invalid date. *)
Definition tryBody (leaderboardSnapshot : list Project.t)
    (blockTimestamp : Z) (market : MarketConfig.t) (c : Counters)
  : M W Counters :=
  _ <- lift (toISOString (MarketConfig.resolveTime market * 1000)) ;;
  if blockTimestamp <? MarketConfig.resolveTime market then
    _ <- lift (toISOString (blockTimestamp * 1000)) ;;
    _ <- lift (toISOString (MarketConfig.resolveTime market * 1000)) ;;
    ret (mkCounters (processed c) (skipped c + 1))
  else
    resolveReady leaderboardSnapshot blockTimestamp market c.

(** [error instanceof Error && error.message.includes("time")] *)
Definition is_time_error (error : thrown) : bool :=
  match error with
  | Error message => includes message "time"
  | NotAnError _ => false
  end.

Definition catchHandler (market : MarketConfig.t) (c : Counters)
    (error : thrown) : M W Counters :=
  _ <- log (ConsoleError ("Error processing market "
                          ++ MarketConfig.questionHash market ++ ":") error) ;;
  if is_time_error error
  then ret (mkCounters (processed c) (skipped c + 1))
  else throw error.

(** One iteration of [for (const market of markets)]. *)
Definition processMarket (leaderboardSnapshot : list Project.t)
    (blockTimestamp : Z) (market : MarketConfig.t) (c : Counters)
  : M W Counters :=
  try_catch (tryBody leaderboardSnapshot blockTimestamp market c)
            (catchHandler market c).

Fixpoint processLoop (leaderboardSnapshot : list Project.t)
    (blockTimestamp : Z) (markets : list MarketConfig.t) (c : Counters)
  : M W Counters :=
  match markets with
  | [] => ret c
  | market :: rest =>
      c' <- processMarket leaderboardSnapshot blockTimestamp market c ;;
      processLoop leaderboardSnapshot blockTimestamp rest c'
  end.

Definition processMarkets : M W unit :=
  leaderboardSnapshot <- loadLeaderboardSnapshot ;;
  markets <- loadMarkets ;;
  match markets with
  | [] => ret tt
  | _ :: _ =>
      _ <- getSigner ;;
      block <- outside GetBlock (provider_getBlock env) ;;
      blockTimestamp <-
        match block with
        | Some timestamp => ret timestamp
        | None => outside ReadClock (fun w => (Ok (Date_now env w / 1000), w))
        end ;;
      c <- processLoop leaderboardSnapshot blockTimestamp markets
                       (mkCounters 0 0) ;;
      log (Summary (processed c) (skipped c))
  end.

End Program.

(** ** The entry point

    [main] of the pipeline runs [processMarkets]; when it throws, the error
    is printed and the process exits with status 1. *)
Inductive outcome : Type :=
| Completed
| Exited (status : Z).

Definition main {W : Type} (env : Env W) : State W -> outcome * State W :=
  fun s =>
    match processMarkets env s with
    | (Ok _, s') => (Completed, s')
    | (Throw error, s') =>
        (Exited 1,
         mkState (world s') (cachedContracts s')
                 (trace s' ++ [ConsoleError "❌ Oracle pipeline failed:" error]))
    end.

(* ================================================================== *)
(** * Vocabulary of the specification *)
(* ================================================================== *)

(** No entry of the snapshot carries the name [x]. *)
Definition absent (x : option string) (snapshot : list Project.t) : Prop :=
  forall p, In p snapshot -> Some (Project.name p) <> x.

(** [p] is the first entry of the snapshot named [s] (the only one when
    names are unique). *)
Definition first_named (s : string) (snapshot : list Project.t)
    (p : Project.t) : Prop :=
  exists pre post,
    snapshot = pre ++ p :: post
    /\ Project.name p = s
    /\ forall q, In q pre -> Project.name q <> s.


(** The ABI encoding of the blob, written out from the words of the
    specification: eight 32-byte words in the order typeHash, marketId,
    winner, snapshotHash, resolvedAt, challengeUntil, nonce, address; the
    winner has one byte, the two times eight bytes and the address twenty,
    each padded on the left with zero bytes; the nonce fills its word. *)
Definition left_pad32 (d : bytes) : bytes :=
  repeat x00 (32 - List.length d) ++ d.

Definition spec_blob_encoding (typeHash marketId : bytes) (winner : Z)
    (snapshotHash : bytes) (resolvedAt challengeUntil nonce : Z)
    (verifyingContractAddress : bytes) : bytes :=
  typeHash
  ++ marketId
  ++ left_pad32 (be_bytes 1 winner)
  ++ snapshotHash
  ++ left_pad32 (be_bytes 8 resolvedAt)
  ++ left_pad32 (be_bytes 8 challengeUntil)
  ++ be_bytes 32 nonce
  ++ left_pad32 verifyingContractAddress.

(** The market's subject (for a head-to-head market, one of its two
    subjects) is missing from the snapshot. *)
Definition subject_absent (market : MarketConfig.t)
    (snapshot : list Project.t) : Prop :=
  (MarketConfig.type market = "top10"%string
   /\ absent (MarketConfig.projectName market) snapshot)
  \/ (MarketConfig.type market = "h2h"%string
      /\ (absent (MarketConfig.projectA market) snapshot
          \/ absent (MarketConfig.projectB market) snapshot)).

(** Some entry of the snapshot carries the name [x]. *)
Definition present (x : option string) (snapshot : list Project.t) : Prop :=
  exists q, In q snapshot /\ x = Some (Project.name q).

(** An entry without its rank. *)
Definition unranked (p : Project.t) : string * Z * string :=
  (Project.name p, Project.score p, Project.logo p).

(** Every value of the random source is one [Math.random()] can return. *)
Definition in_unit_interval (random : nat -> Q) : Prop :=
  forall k, (0 <= random k)%Q /\ (random k < 1)%Q.

(** The ranks 1, 2, ..., n. *)
Definition ranks_upto (n : nat) : list Z :=
  map (fun index => Z.of_nat index + 1) (seq 0 n).

(** The same market with its two subjects exchanged. *)
Definition exchanged (market : MarketConfig.t) : MarketConfig.t :=
  MarketConfig.mk (MarketConfig.type market) (MarketConfig.projectName market)
                  (MarketConfig.projectB market) (MarketConfig.projectA market)
                  (MarketConfig.lockTime market) (MarketConfig.resolveTime market)
                  (MarketConfig.questionHash market) (MarketConfig.marketId market)
                  (MarketConfig.marketAddress market).


(** The twenty bytes such an address denotes. *)
Definition address_bytes (address : string) : bytes :=
  be_bytes 20 (number_in_base 16 (skipn 2 (list_ascii_of_string address))).

(** The number an address denotes, for any spelling the library takes. *)
Definition address_number (address : string) : result Z :=
  a <-? getAddress address ;; getBigInt (Str a).



(** The type names generateBlobHash passes to the coder. *)
Definition blob_types : list string :=
  ["bytes32"; "bytes32"; "uint8"; "bytes32"; "uint64"; "uint64"; "uint256";
   "address"]%string.

(** An API call that gave no data: the fetch threw, the response was not
    ok, or its body could not be read. *)
Definition api_failed {A : Type} (answer : result (Http.response A)) : Prop :=
  match answer with
  | Throw _ => True
  | Ok response =>
      Http.ok response = false \/ exists t, Http.json response = Throw t
  end.

(** What getContracts falls back on: the cached addresses, or the error
    that there are none. *)
Definition cached_or_throw (cached : option ContractAddresses.t)
  : result ContractAddresses.t :=
  match cached with
  | Some c => Ok c
  | None => Throw (Error "Contract addresses not configured")
  end.

(** The address the API answer gives a role: that of the last entry of
    that type, if there is one. *)
Definition last_address (role : string) (data : list (string * string))
  : option string :=
  fold_left (fun acc entry => if (fst entry =? role)%string
                              then Some (snd entry) else acc)
            data None.

(** The address of a role after an API answer: the API's if it names the
    role, the cached one otherwise. *)
Definition merged_address (role : string) (data : list (string * string))
    (cached : option string) : option string :=
  match last_address role data with
  | Some a => Some a
  | None => cached
  end.

Definition merged_contracts (data : list (string * string))
    (cached : option ContractAddresses.t) : option ContractAddresses.t :=
  PartialContracts.complete
    (PartialContracts.mk
       (merged_address "settlementOracle" data
          (option_map ContractAddresses.settlementOracle cached))
       (merged_address "marketFactory" data
          (option_map ContractAddresses.marketFactory cached))
       (merged_address "stakeToken" data
          (option_map ContractAddresses.stakeToken cached))).

(** No address of the API answer or of the cache is empty.  (The source
    tests the merged addresses for truthiness, and an empty address string
    is falsy.) *)
Definition truthy_addresses (data : list (string * string))
    (cached : option ContractAddresses.t) : Prop :=
  Forall (fun entry => snd entry <> EmptyString) data
  /\ match cached with
     | Some c => ContractAddresses.settlementOracle c <> EmptyString
                 /\ ContractAddresses.marketFactory c <> EmptyString
                 /\ ContractAddresses.stakeToken c <> EmptyString
     | None => True
     end.


Definition is_compute_call (e : event) : bool :=
  match e with
  | CallComputeMarketId _ _ _ => true
  | _ => false
  end.

(** One step of reading an API answer for one role. *)
Definition role_update (role : string) (acc : option string)
    (entry : string * string) : option string :=
  if (fst entry =? role)%string then Some (snd entry) else acc.

(** The state after getContracts asked the API: the collaborators moved
    on, the cache is [cached], and the fetch and what was printed are in the
    trace. *)
Definition after_fetch {W : Type} (s : State W) (w' : W)
    (cached : option ContractAddresses.t) (printed : list event) : State W :=
  mkState w' cached (trace s ++ Fetch "/api/contracts" :: printed).

Definition fetch_error_line (t : thrown) : event :=
  ConsoleError "Failed to fetch contracts from API, using local config" t.

(** Both loads of a run succeed: the API serves [leaderboard] and
    [markets], and leaves the collaborators in state [w2]. *)
Definition loads {W : Type} (env : Env W) (s : State W)
    (leaderboard : list Project.t) (markets : list MarketConfig.t) (w2 : W)
  : Prop :=
  exists r1 w1 r2,
    fetch_leaderboard env (world s) = (Ok r1, w1)
    /\ Http.ok r1 = true /\ Http.json r1 = Ok leaderboard
    /\ fetch_markets env w1 = (Ok r2, w2)
    /\ Http.ok r2 = true /\ Http.json r2 = Ok markets.

Definition after_loads {W : Type} (s : State W) (w2 : W) : State W :=
  mkState w2 (cachedContracts s)
          (trace s ++ [Fetch "/api/leaderboard/today"; Fetch "/api/markets"]).

(** The leaderboard load of a run succeeds. *)
Definition loads_leaderboard {W : Type} (env : Env W) (s : State W)
    (leaderboard : list Project.t) (w1 : W) : Prop :=
  exists r1,
    fetch_leaderboard env (world s) = (Ok r1, w1)
    /\ Http.ok r1 = true /\ Http.json r1 = Ok leaderboard.

(** The state in which the loop of a run starts: after the two loads, the
    signer and the block. *)
Definition loop_start {W : Type} (s : State W) (w3 : W) : State W :=
  mkState w3 (cachedContracts s)
          (trace s ++ [Fetch "/api/leaderboard/today"; Fetch "/api/markets";
                       GetBlock]).

(** An event that signs or that submits to the chain. *)
Definition signs_or_submits (e : event) : bool :=
  match e with
  | SignMessage _ => true
  | CallPost _ _ _ => true
  | WaitReceipt _ => true
  | _ => false
  end.

(** An event that neither signs nor submits. *)
Definition quiet (e : event) : bool := negb (signs_or_submits e).

(** An event that reaches a collaborator at all (everything but what the
    process prints). *)
Definition leaves_process (e : event) : bool :=
  match e with
  | ConsoleError _ _ => false
  | Summary _ _ => false
  | _ => true
  end.

(** The error determineWinner throws for a missing subject (the
    specification's NotFound), by market type. *)
Definition not_found_error (market : MarketConfig.t) : thrown :=
  if (MarketConfig.type market =? "top10")%string
  then Error ("Project " ++ show (MarketConfig.projectName market)
              ++ " not found in leaderboard")
  else Error ("Projects not found: " ++ show (MarketConfig.projectA market)
              ++ " or " ++ show (MarketConfig.projectB market)).

(** The state after the catch block printed the error of a market. *)
Definition after_console_error {W : Type} (s : State W)
    (market : MarketConfig.t) (t : thrown) : State W :=
  mkState (world s) (cachedContracts s)
          (trace s ++ [ConsoleError ("Error processing market "
                                     ++ MarketConfig.questionHash market ++ ":")
                                    t]).

(** Whatever state it starts from, the computation only adds events, and
    every event it adds satisfies [P]. *)
Definition emits_only {W A : Type} (P : event -> bool) (c : M W A) : Prop :=
  forall s, exists evs,
    trace (snd (c s)) = trace s ++ evs /\ Forall (fun e => P e = true) evs.

(** The computation throws from every state. *)
Definition always_throws {W A : Type} (c : M W A) : Prop :=
  forall s, exists t, fst (c s) = Throw t.

(* ================================================================== *)
(** * Sample data: the end-to-end scenarios of the specification *)
(* ================================================================== *)

Definition entry (name : string) (rank : Z) : Project.t :=
  Project.mk name rank (1000 - 10 * rank) (name ++ ".png").

(** Twelve entries ranked 1 to 12. *)
Definition sample_leaderboard : list Project.t :=
  [ entry "Scroll" 1; entry "Morpho" 2; entry "Jupiter" 3; entry "Fantom" 4;
    entry "Gains Network" 5; entry "Drift Protocol" 6; entry "Aave" 7;
    entry "Lido" 8; entry "Uniswap" 9; entry "Curve" 10; entry "Maker" 11;
    entry "Pendle" 12 ].

(** The digest of a question in the sample runs: 32 bytes of hex data,
    the bytes of a short label and zeros after them. *)
Definition question_hash (label : string) : string :=
  hexlify (toUtf8Bytes label
           ++ repeat x00 (32 - List.length (toUtf8Bytes label))).

Definition top10_market (subject : string) (resolveTime : Z)
    (marketId : option bytes) : MarketConfig.t :=
  MarketConfig.mk "top10" (Some subject) None None
                  (resolveTime - 3600) resolveTime
                  (question_hash subject) marketId None.

Definition h2h_market (a b : string) (resolveTime : Z)
    (marketId : option bytes) : MarketConfig.t :=
  MarketConfig.mk "h2h" None (Some a) (Some b)
                  (resolveTime - 3600) resolveTime
                  (question_hash (a ++ " vs " ++ b)) marketId None.

Definition sample_addresses : ContractAddresses.t :=
  ContractAddresses.mk "0xa1a1a1a1a1a1a1a1a1a1a1a1a1a1a1a1a1a1a1a1"
                       "0xb2b2b2b2b2b2b2b2b2b2b2b2b2b2b2b2b2b2b2b2"
                       "0xc3c3c3c3c3c3c3c3c3c3c3c3c3c3c3c3c3c3c3c3".

(** The factory contract of the sample runs.  As the library does before it
    sends the call, it refuses arguments that have no encoding (a question
    hash that is not 32 bytes of hex data, a lock time that is no uint64);
    the id it answers is the hash of the encoded arguments. *)
Definition sample_factory {W : Type} (factory questionHash : string)
    (lockTime : Z) (w : W) : result bytes * W :=
  (encoded <-? AbiCoder_encode ["bytes32"; "uint64"]%string
                               [Str questionHash; Num lockTime] ;;
   Ok (keccak256 encoded), w).

(** Collaborators that always answer: the API serves the sample
    leaderboard and [markets], the chain is at [now], the factory derives an
    id, the wallet signs, and the oracle contract answers a post with
    [post_answer].  Their state counts the posts received. *)
Definition sample_env (now : Z) (markets : list MarketConfig.t)
    (post_answer : result string) : Env nat :=
  {| config := AppConfig.mk "https://sepolia.base.org" "0xkey"
                            "http://localhost:3001";
     new_Wallet := fun _ => Ok tt;
     fetch_contracts := fun w => (Ok (Http.mk true "OK" (Ok [])), w);
     fetch_leaderboard := fun w => (Ok (Http.mk true "OK" (Ok sample_leaderboard)), w);
     fetch_markets := fun w => (Ok (Http.mk true "OK" (Ok markets)), w);
     provider_getBlock := fun w => (Ok (Some now), w);
     Date_now := fun _ => now * 1000;
     factory_computeMarketId := sample_factory;
     signer_signMessage := fun _ w => (Ok (repeat x5a 65), w);
     oracle_post := fun _ _ _ w => (post_answer, S w);
     tx_wait := fun _ w => (Ok tt, w) |}.

Definition sample_state : State nat :=
  mkState O (Some sample_addresses) [].

(** The chain time of the sample runs, a market id, and two answers of the
    oracle contract to a post. *)
Definition now : Z := 1700000000.

Definition an_id : bytes := repeat x07 32.

Definition time_revert : thrown :=
  Error "execution reverted: resolve time not reached".


(** Collaborators as in [sample_env], with a private key, an answer of the
    contracts API and an answer of the leaderboard API to choose. *)
Definition test_env (key : string)
    (contracts_api : result (Http.response (list (string * string))))
    (leaderboard_api : result (Http.response (list Project.t)))
    (markets : list MarketConfig.t) : Env nat :=
  {| config := AppConfig.mk "https://sepolia.base.org" key
                            "http://localhost:3001";
     new_Wallet := fun _ => Ok tt;
     fetch_contracts := fun w => (contracts_api, w);
     fetch_leaderboard := fun w => (leaderboard_api, w);
     fetch_markets := fun w => (Ok (Http.mk true "OK" (Ok markets)), w);
     provider_getBlock := fun w => (Ok (Some now), w);
     Date_now := fun _ => now * 1000;
     factory_computeMarketId := sample_factory;
     signer_signMessage := fun _ w => (Ok (repeat x5a 65), w);
     oracle_post := fun _ _ _ w => (Ok "0xtx"%string, S w);
     tx_wait := fun _ w => (Ok tt, w) |}.

Definition leaderboard_ok : result (Http.response (list Project.t)) :=
  Ok (Http.mk true "OK" (Ok sample_leaderboard)).

Definition contracts_down : result (Http.response (list (string * string))) :=
  Throw (Error "fetch failed").

(** The result of a determineWinner that is known to return. *)
Definition or_default (r : result Determined.t) : Determined.t :=
  match r with
  | Ok d => d
  | Throw _ => Determined.mk 0 []
  end.

(** An answer of the contracts API that moves the settlement oracle, names
    it twice, and has an entry of a type the code does not know. *)
Definition contracts_moved : list (string * string) :=
  [ ("settlementOracle", "0xd4d4d4d4d4d4d4d4d4d4d4d4d4d4d4d4d4d4d4d4");
    ("feeVault", "0xe5e5e5e5e5e5e5e5e5e5e5e5e5e5e5e5e5e5e5e5");
    ("settlementOracle", "0xf6f6f6f6f6f6f6f6f6f6f6f6f6f6f6f6f6f6f6f6") ]%string.

(** Collaborators as in [test_env], whose markets API answers with
    [markets_api] and whose oracle contract answers a post with
    [post_answer]. *)
Definition test_env_markets
    (markets_api : result (Http.response (list MarketConfig.t)))
    (post_answer : result string) : Env nat :=
  {| config := AppConfig.mk "https://sepolia.base.org" "0xkey"
                            "http://localhost:3001";
     new_Wallet := fun _ => Ok tt;
     fetch_contracts := fun w => (Throw (Error "fetch failed"), w);
     fetch_leaderboard :=
       fun w => (Ok (Http.mk true "OK" (Ok sample_leaderboard)), w);
     fetch_markets := fun w => (markets_api, w);
     provider_getBlock := fun w => (Ok (Some now), w);
     Date_now := fun _ => now * 1000;
     factory_computeMarketId := sample_factory;
     signer_signMessage := fun _ w => (Ok (repeat x5a 65), w);
     oracle_post := fun _ _ _ w => (post_answer, S w);
     tx_wait := fun _ w => (Ok tt, w) |}.

Definition leaderboard_unavailable
  : result (Http.response (list Project.t)) :=
  Ok (Http.mk false "Service Unavailable" (Ok [])).

(** Values of [Math.random()]: 0, 0.7, 0.4, 0.1, 0.8, ... *)
Definition sample_random (k : nat) : Q :=
  Z.of_nat ((k * 7) mod 10) # 10.

(* ================================================================== *)
(** * Bytes and words *)
(* ================================================================== *)

Section Words.
Import Keccak.

Lemma Z_of_byte_range (b : byte) : 0 <= Z_of_byte b < 256.
Proof.
  unfold Z_of_byte.
  pose proof (Byte.to_N_bounded b) as Hb.
  lia.
Qed.

Lemma byte_of_Z_mod (z : Z) : byte_of_Z z = byte_of_Z (z mod 256).
Proof.
  unfold byte_of_Z.
  change 255 with (Z.ones 8).
  rewrite !Z.land_ones by lia.
  change (2 ^ 8) with 256.
  now rewrite Z.mod_mod by lia.
Qed.

Lemma byte_of_Z_of_byte (b : byte) : byte_of_Z (Z_of_byte b) = b.
Proof.
  unfold byte_of_Z.
  change 255 with (Z.ones 8).
  rewrite Z.land_ones by lia.
  change (2 ^ 8) with 256.
  rewrite Z.mod_small by apply Z_of_byte_range.
  unfold Z_of_byte.
  rewrite N2Z.id, Byte.of_to_N.
  reflexivity.
Qed.


Lemma be_bytes_length (n : nat) (v : Z) : List.length (be_bytes n v) = n.
Proof.
  revert v.
  induction n as [|n IH]; intros v; simpl.
  - reflexivity.
  - rewrite length_app, IH. simpl. lia.
Qed.




Lemma be_value_snoc (d : list byte) (b : byte) :
  be_value (d ++ [b]) = be_value d * 256 + Z_of_byte b.
Proof.
  unfold be_value.
  now rewrite fold_left_app.
Qed.

Lemma be_value_range (d : list byte) :
  0 <= be_value d < 256 ^ Z.of_nat (List.length d).
Proof.
  induction d as [|b d IH] using rev_ind.
  - simpl. unfold be_value. simpl. lia.
  - rewrite be_value_snoc, length_app.
    simpl List.length.
    rewrite Nat.add_1_r, Nat2Z.inj_succ, Z.pow_succ_r by lia.
    pose proof (Z_of_byte_range b).
    lia.
Qed.

(** Reading bytes as a big-endian number and writing the number back on as
    many bytes gives the bytes again. *)
Lemma be_bytes_be_value (d : list byte) :
  be_bytes (List.length d) (be_value d) = d.
Proof.
  induction d as [|b d IH] using rev_ind.
  - reflexivity.
  - rewrite be_value_snoc, length_app.
    simpl List.length.
    rewrite Nat.add_1_r.
    simpl be_bytes.
    pose proof (Z_of_byte_range b) as Hb.
    replace ((be_value d * 256 + Z_of_byte b) / 256) with (be_value d).
    + rewrite IH.
      rewrite (byte_of_Z_mod (be_value d * 256 + Z_of_byte b)).
      rewrite Z.add_comm, Z.mod_add by lia.
      rewrite Z.mod_small by exact Hb.
      now rewrite byte_of_Z_of_byte.
    + rewrite Z.add_comm, Z.div_add by lia.
      rewrite Z.div_small by exact Hb.
      reflexivity.
Qed.


(** The model against the published Keccak-256 digests of the empty
    string and of "abc", and the type hash of the Resolve schema. *)
Example keccak256_empty :
  hexlify (keccak256 [])
  = "0xc5d2460186f7233c927e7db2dcc703c0e500b653ca82273b7bfad8045d85a470"%string.
Proof. vm_compute. reflexivity. Qed.

Example keccak256_abc :
  hexlify (keccak256 (toUtf8Bytes "abc"))
  = "0x4e03657aea45a94fc7d47ba826c8d667c0d1e6e33a64a036ec44f58fa12d6c45"%string.
Proof. vm_compute. reflexivity. Qed.

Example Resolve_typeHash :
  hexlify (keccak256 (toUtf8Bytes Resolve_schema))
  = "0x40f493d5633624a326145354c71de6b2f47ca89de10a38edd703c8dd3b6aae0c"%string.
Proof. vm_compute. reflexivity. Qed.

End Words.

(** From here on the digest is taken as a whole: a proof step never
    computes one by unfolding. *)
Opaque keccak256.

(* ================================================================== *)
(** * The typed blob hash *)
(* ================================================================== *)

Section Spelling.
Import Keccak.


Lemma hex_digit_pair (b : byte) :
  is_hex (hex_digit (Z_of_byte b / 16))
  && is_hex (hex_digit (Z_of_byte b mod 16)) = true
  /\ byte_of_Z (digit_value (hex_digit (Z_of_byte b / 16)) * 16
                + digit_value (hex_digit (Z_of_byte b mod 16))) = b.
Proof. destruct b; split; vm_compute; reflexivity. Qed.

Lemma hex_pairs_hexlify (d : list byte) :
  hex_pairs (flat_map (fun b => [hex_digit (Z_of_byte b / 16);
                                 hex_digit (Z_of_byte b mod 16)]) d)
  = Some d.
Proof.
  induction d as [|b d IH]; [reflexivity|].
  cbn [flat_map app hex_pairs].
  destruct (hex_digit_pair b) as [-> ->].
  now rewrite IH.
Qed.

(** Reading the hex data string of some bytes gives the bytes. *)
Lemma getBytes_hexlify (d : list byte) : getBytes (hexlify d) = Ok d.
Proof.
  unfold getBytes, hexlify.
  cbn [append list_ascii_of_string].
  rewrite list_ascii_of_string_of_list_ascii.
  change ((code "x" =? 120) || (code "x" =? 88)) with true. cbv iota.
  now rewrite hex_pairs_hexlify.
Qed.

























End Spelling.

Section BlobHash.






Lemma writeValue_inv (n : Z) (w : bytes) :
  writeValue n = Ok w -> 0 <= n < 2 ^ 256 /\ w = be_bytes 32 n.
Proof.
  unfold writeValue.
  destruct (Z.ltb_spec n 0); [discriminate|].
  destruct (Z.leb_spec (2 ^ 256) n); [discriminate|].
  intros H'. inversion H'. split; [lia | reflexivity].
Qed.

(** The address coder writes the number of the address on its word. *)
Lemma encode_word_address_number (s : string) :
  encode_word address (Str s) = (n <-? address_number s ;; writeValue n).
Proof.
  unfold encode_word, address_number.
  destruct (getAddress s); reflexivity.
Qed.


Lemma encode_word_bytes32_inv (d w : bytes) :
  encode_word bytes32 (Hex d) = Ok w -> List.length d = 32%nat.
Proof.
  unfold encode_word, Hex. rewrite getBytes_hexlify. cbn [JS.bind].
  destruct (List.length d =? 32)%nat eqn:Hlen; [|discriminate].
  intros _. now apply Nat.eqb_eq.
Qed.

Lemma encode_word_uint_inv (bits n : Z) (w : bytes) :
  encode_word (uint bits) (Num n) = Ok w ->
  0 <= n < 2 ^ bits /\ n <= max_safe_integer /\ w = be_bytes 32 n.
Proof.
  unfold encode_word, getBigInt.
  destruct ((- max_safe_integer <=? n) && (n <=? max_safe_integer)) eqn:Hs;
    [|discriminate].
  cbn [JS.bind].
  destruct (0 <=? n) eqn:Hlo; destruct (n <? 2 ^ bits) eqn:Hhi;
    try discriminate.
  intros H'. inversion H'.
  apply andb_prop in Hs as [_ Hs].
  apply Z.leb_le in Hlo, Hs. apply Z.ltb_lt in Hhi. repeat split; lia.
Qed.

Lemma encode_word_uint_big_inv (bits n : Z) (w : bytes) :
  encode_word (uint bits) (Big n) = Ok w ->
  0 <= n < 2 ^ bits /\ w = be_bytes 32 n.
Proof.
  unfold encode_word, getBigInt, JS.bind.
  destruct (0 <=? n) eqn:Hlo; destruct (n <? 2 ^ bits) eqn:Hhi;
    try discriminate.
  intros H'. inversion H'.
  apply Z.leb_le in Hlo. apply Z.ltb_lt in Hhi. repeat split; lia.
Qed.

Lemma encode_word_address_inv (s : string) (w : bytes) :
  encode_word address (Str s) = Ok w ->
  exists a n,
    getAddress s = Ok a
    /\ address_number s = Ok n
    /\ 0 <= n < 2 ^ 256
    /\ w = be_bytes 32 n.
Proof.
  rewrite encode_word_address_number.
  unfold address_number.
  destruct (getAddress s) as [a|]; [|discriminate].
  cbn [JS.bind].
  destruct (getBigInt (Str a)) as [n|]; [|discriminate].
  cbn [JS.bind]. intros Hw. apply writeValue_inv in Hw as [Hr ->].
  exists a, n. auto.
Qed.

(** generateBlobHash returns only for inputs that fit their ABI types; for
    any other input the coder throws. *)
Lemma generateBlobHash_ok_inv
    (marketId : bytes) (winner : Z) (snapshotHash : bytes)
    (resolvedAt challengeUntil nonce : Z) (oracleAddress : string)
    (h : bytes) :
  generateBlobHash marketId winner snapshotHash resolvedAt challengeUntil
                   nonce oracleAddress = Ok h ->
  List.length marketId = 32%nat
  /\ 0 <= winner < 2 ^ 8
  /\ List.length snapshotHash = 32%nat
  /\ 0 <= resolvedAt < 2 ^ 64
  /\ 0 <= challengeUntil < 2 ^ 64
  /\ 0 <= nonce < 2 ^ 256
  /\ exists a, getAddress oracleAddress = Ok a.
Proof.
  unfold generateBlobHash, AbiCoder_encode.
  cbn [List.length Nat.eqb negb types_of_names type_of_name String.eqb
       Ascii.eqb Bool.eqb JS.bind encode_words].
  destruct (encode_word bytes32 (Hex (keccak256 _))); [|discriminate].
  destruct (encode_word bytes32 (Hex marketId)) eqn:H1; [|discriminate].
  destruct (encode_word (uint 8) (Num winner)) eqn:H2; [|discriminate].
  destruct (encode_word bytes32 (Hex snapshotHash)) eqn:H3; [|discriminate].
  destruct (encode_word (uint 64) (Num resolvedAt)) eqn:H4; [|discriminate].
  destruct (encode_word (uint 64) (Num challengeUntil)) eqn:H5; [|discriminate].
  destruct (encode_word (uint 256) (Big nonce)) eqn:H6; [|discriminate].
  destruct (encode_word address (Str oracleAddress)) eqn:H7; [|discriminate].
  intros _.
  apply encode_word_bytes32_inv in H1, H3.
  apply encode_word_uint_inv in H2, H4, H5.
  apply encode_word_uint_big_inv in H6.
  apply encode_word_address_inv in H7 as (spelling & number & Hspelling & _).
  repeat split; try solve [assumption | lia].
  now exists spelling.
Qed.


(** The encoding that is hashed has eight words. *)
Lemma spec_blob_encoding_length
    (typeHash marketId : bytes) (winner : Z) (snapshotHash : bytes)
    (resolvedAt challengeUntil nonce : Z) (oracleAddress : bytes) :
  List.length typeHash = 32%nat ->
  List.length marketId = 32%nat ->
  List.length snapshotHash = 32%nat ->
  List.length oracleAddress = 20%nat ->
  List.length (spec_blob_encoding typeHash marketId winner snapshotHash
                 resolvedAt challengeUntil nonce oracleAddress) = 256%nat.
Proof.
  intros Ht Hid Hsnap Haddr.
  unfold spec_blob_encoding, left_pad32.
  rewrite !length_app, !repeat_length, !be_bytes_length.
  rewrite Ht, Hid, Hsnap, Haddr.
  reflexivity.
Qed.

(** Where the coder refuses what has an encoding: a time that is a number
    from 2^53 on, and an address whose letters are in a case that is not
    its checksum. *)
Example generateBlobHash_unsafe_time :
  generateBlobHash (repeat x11 32) 1 (repeat x22 32) (2 ^ 53) 0 (2 ^ 53)
                   "0xa1a1a1a1a1a1a1a1a1a1a1a1a1a1a1a1a1a1a1a1"
  = Throw (Error "overflow").
Proof. vm_compute. reflexivity. Qed.

Example generateBlobHash_bad_checksum :
  generateBlobHash (repeat x11 32) 1 (repeat x22 32) 1700000000 0 1700000000
                   "0x5aaeb6053F3E94C9b9A09f33669435E7Ef1BeAed"
  = Throw (Error "bad address checksum").
Proof. vm_compute. reflexivity. Qed.

End BlobHash.


(* ================================================================== *)
(** * Winner determination *)
(* ================================================================== *)

Section Winner.

Lemma name_is_true (x : option string) (p : Project.t) :
  name_is x p = true <-> x = Some (Project.name p).
Proof.
  destruct x as [s|]; simpl.
  - rewrite String.eqb_eq. split; intros H; [now subst | now inversion H].
  - split; discriminate.
Qed.

Lemma name_is_false (x : option string) (p : Project.t) :
  name_is x p = false <-> Some (Project.name p) <> x.
Proof.
  rewrite <- Bool.not_true_iff_false, name_is_true.
  split; intros H E; apply H; now symmetry.
Qed.

Lemma find_absent (x : option string) (snapshot : list Project.t) :
  absent x snapshot -> find (name_is x) snapshot = None.
Proof.
  intros Habs.
  induction snapshot as [|p rest IH]; simpl.
  - reflexivity.
  - assert (Hp : name_is x p = false).
    { apply name_is_false, Habs. now left. }
    rewrite Hp.
    apply IH. intros q Hq. apply Habs. now right.
Qed.

Lemma find_first_named (s : string) (snapshot : list Project.t) (p : Project.t) :
  first_named s snapshot p -> find (name_is (Some s)) snapshot = Some p.
Proof.
  intros (pre & post & -> & Hname & Hpre).
  induction pre as [|q pre IH]; cbn [app find].
  - assert (Hp : name_is (Some s) p = true) by (apply name_is_true; now subst).
    now rewrite Hp.
  - assert (Hq : name_is (Some s) q = false).
    { apply name_is_false. intros E. inversion E as [E'].
      apply (Hpre q); [now left | exact E']. }
    rewrite Hq.
    apply IH. intros r Hr. apply Hpre. now right.
Qed.

Lemma first_named_exists (s : string) (snapshot : list Project.t) :
  (exists q, In q snapshot /\ Project.name q = s) ->
  exists p, first_named s snapshot p.
Proof.
  induction snapshot as [|a rest IH]; intros (q & Hin & Hq).
  - destruct Hin.
  - destruct (String.eqb_spec (Project.name a) s) as [Ha|Ha].
    + exists a, [], rest. repeat split; [exact Ha | intros r []].
    + destruct Hin as [-> | Hin]; [contradiction|].
      destruct IH as (p & pre & post & -> & Hp & Hpre); [now exists q|].
      exists p, (a :: pre), post.
      repeat split; [exact Hp|].
      intros r [<- | Hr]; [exact Ha | now apply Hpre].
Qed.

(** Either the name is absent, or some entry carries it. *)
Lemma absent_or_present (x : option string) (snapshot : list Project.t) :
  absent x snapshot
  \/ exists s q, x = Some s /\ In q snapshot /\ Project.name q = s.
Proof.
  destruct (find (name_is x) snapshot) as [p|] eqn:Hfind.
  - right. apply find_some in Hfind as [Hin Hp].
    apply name_is_true in Hp.
    now exists (Project.name p), p.
  - left. intros p Hin.
    apply name_is_false.
    now apply (find_none _ _ Hfind).
Qed.

(** The hash in a result is the hash of the snapshot's serialization. *)
Lemma determineWinner_snapshotHash (market : MarketConfig.t)
    (snapshot : list Project.t) (d : Determined.t) :
  determineWinner market snapshot = Ok d ->
  Determined.snapshotHash d = hashJson (JSON_stringify snapshot).
Proof.
  unfold determineWinner.
  destruct (MarketConfig.type market =? "top10")%string.
  - destruct (find _ snapshot); intros H; inversion H; reflexivity.
  - destruct (MarketConfig.type market =? "h2h")%string.
    + destruct (find _ snapshot); [destruct (find _ snapshot)|];
        intros H; inversion H; reflexivity.
    + discriminate.
Qed.

(** A market whose subject is missing gets the not-found error, whatever
    its market id. *)
Lemma determineWinner_subject_absent (market : MarketConfig.t)
    (snapshot : list Project.t) :
  subject_absent market snapshot ->
  determineWinner market snapshot = Throw (not_found_error market).
Proof.
  unfold determineWinner, not_found_error.
  intros [[Htype Habs] | [Htype Habs]]; rewrite Htype; simpl String.eqb; cbv iota.
  - now rewrite (find_absent _ _ Habs).
  - destruct Habs as [Habs | Habs]; rewrite (find_absent _ _ Habs).
    + reflexivity.
    + now destruct (find _ snapshot).
Qed.

(** C2. For a 'top10' market: when no entry of the snapshot has the
    subject's name, determineWinner throws the not-found error; when some
    entry has it, the (first) entry so named decides: winner 1 if its rank is
    at most 10, winner 2 if its rank is above 10.  The threshold is the
    constant 10. *)
Theorem determineWinner_top10 (market : MarketConfig.t)
    (snapshot : list Project.t) :
  MarketConfig.type market = "top10"%string ->
  (absent (MarketConfig.projectName market) snapshot ->
   determineWinner market snapshot
   = Throw (Error ("Project " ++ show (MarketConfig.projectName market)
                   ++ " not found in leaderboard")))
  /\
  (forall s,
     MarketConfig.projectName market = Some s ->
     (exists q, In q snapshot /\ Project.name q = s) ->
     exists p d,
       first_named s snapshot p
       /\ determineWinner market snapshot = Ok d
       /\ (Project.rank p <= 10 -> Determined.winner d = 1)
       /\ (10 < Project.rank p -> Determined.winner d = 2)).
Proof.
  intros Htype.
  unfold determineWinner. rewrite Htype. simpl String.eqb. cbv iota.
  split.
  - intros Habs. now rewrite (find_absent _ _ Habs).
  - intros s Hs Hex.
    destruct (first_named_exists s snapshot Hex) as [p Hp].
    rewrite Hs, (find_first_named s snapshot p Hp).
    exists p. eexists. split; [exact Hp|]. split; [reflexivity|].
    simpl. split; intros Hr.
    + apply Z.leb_le in Hr. now rewrite Hr.
    + apply Z.leb_gt in Hr. now rewrite Hr.
Qed.

(** C3. For an 'h2h' market: when either subject is absent from the
    snapshot, determineWinner throws the not-found error; when both are
    present, the winner is 1 if the rank of A is below the rank of B and 2
    otherwise, so that equal ranks give winner 2. *)
Theorem determineWinner_h2h (market : MarketConfig.t)
    (snapshot : list Project.t) :
  MarketConfig.type market = "h2h"%string ->
  (absent (MarketConfig.projectA market) snapshot
   \/ absent (MarketConfig.projectB market) snapshot ->
   determineWinner market snapshot
   = Throw (Error ("Projects not found: " ++ show (MarketConfig.projectA market)
                   ++ " or " ++ show (MarketConfig.projectB market))))
  /\
  (forall sa sb,
     MarketConfig.projectA market = Some sa ->
     MarketConfig.projectB market = Some sb ->
     (exists q, In q snapshot /\ Project.name q = sa) ->
     (exists q, In q snapshot /\ Project.name q = sb) ->
     exists pa pb d,
       first_named sa snapshot pa
       /\ first_named sb snapshot pb
       /\ determineWinner market snapshot = Ok d
       /\ (Project.rank pa < Project.rank pb -> Determined.winner d = 1)
       /\ (Project.rank pb <= Project.rank pa -> Determined.winner d = 2)
       /\ (Project.rank pa = Project.rank pb -> Determined.winner d = 2)).
Proof.
  intros Htype.
  unfold determineWinner. rewrite Htype. simpl String.eqb. cbv iota.
  split.
  - intros [Habs | Habs]; rewrite (find_absent _ _ Habs).
    + reflexivity.
    + now destruct (find _ snapshot).
  - intros sa sb Ha Hb Hexa Hexb.
    destruct (first_named_exists sa snapshot Hexa) as [pa Hpa].
    destruct (first_named_exists sb snapshot Hexb) as [pb Hpb].
    rewrite Ha, Hb.
    rewrite (find_first_named sa snapshot pa Hpa).
    rewrite (find_first_named sb snapshot pb Hpb).
    exists pa, pb. eexists.
    split; [exact Hpa|]. split; [exact Hpb|]. split; [reflexivity|].
    simpl. repeat split; intros Hr.
    + apply Z.ltb_lt in Hr. now rewrite Hr.
    + apply Z.ltb_ge in Hr. now rewrite Hr.
    + assert (Hge : Project.rank pb <= Project.rank pa) by lia.
      apply Z.ltb_ge in Hge. now rewrite Hge.
Qed.

(** C10. The snapshot hash determineWinner returns depends on the
    leaderboard only: two markets resolved against the same leaderboard get
    the same hash, the keccak256 of its JSON serialization. *)
Theorem snapshotHash_independent_of_market (leaderboard : list Project.t)
    (market1 market2 : MarketConfig.t) (d1 d2 : Determined.t) :
  determineWinner market1 leaderboard = Ok d1 ->
  determineWinner market2 leaderboard = Ok d2 ->
  Determined.snapshotHash d1 = Determined.snapshotHash d2
  /\ Determined.snapshotHash d1
     = keccak256 (toUtf8Bytes (JSON_stringify leaderboard)).
Proof.
  intros H1 H2.
  apply determineWinner_snapshotHash in H1, H2.
  rewrite H1, H2. split; reflexivity.
Qed.




End Winner.

(* ================================================================== *)
(** * Traces *)
(* ================================================================== *)

Section Traces.
Context {W : Type} (P : event -> bool).

Lemma emits_only_ret {A} (a : A) : emits_only P (@ret W A a).
Proof.
  intros s. exists []. simpl. now rewrite app_nil_r.
Qed.

Lemma emits_only_throw {A} (t : thrown) : emits_only P (@throw W A t).
Proof.
  intros s. exists []. simpl. now rewrite app_nil_r.
Qed.

Lemma emits_only_lift {A} (r : result A) : emits_only P (@lift W A r).
Proof.
  intros s. exists []. simpl. now rewrite app_nil_r.
Qed.

Lemma emits_only_log (e : event) : P e = true -> emits_only P (@log W e).
Proof.
  intros He s. exists [e]. simpl. split; [reflexivity | now constructor].
Qed.

Lemma emits_only_outside {A} (e : event) (op : W -> result A * W) :
  P e = true -> emits_only P (outside e op).
Proof.
  intros He s. exists [e]. unfold outside.
  destruct (op (world s)) as [r w']. simpl.
  split; [reflexivity | now constructor].
Qed.

Lemma emits_only_get : emits_only P (@get_cachedContracts W).
Proof.
  intros s. exists []. simpl. now rewrite app_nil_r.
Qed.

Lemma emits_only_set (c : ContractAddresses.t) :
  emits_only P (@set_cachedContracts W c).
Proof.
  intros s. exists []. simpl. now rewrite app_nil_r.
Qed.

(** Sequencing, with what is known of the first result. *)
Lemma emits_only_bind_post {A B} (Q : A -> Prop) (c : M W A) (k : A -> M W B) :
  emits_only P c ->
  (forall s a s', c s = (Ok a, s') -> Q a) ->
  (forall a, Q a -> emits_only P (k a)) ->
  emits_only P (mbind c k).
Proof.
  intros Hc Hpost Hk s.
  unfold mbind.
  destruct (Hc s) as (evs1 & Htr1 & Hall1).
  destruct (c s) as [[a|t] s1] eqn:Hrun; simpl in Htr1.
  - destruct (Hk a (Hpost s a s1 Hrun) s1) as (evs2 & Htr2 & Hall2).
    exists (evs1 ++ evs2).
    rewrite Htr2, Htr1, app_assoc.
    split; [reflexivity | now apply Forall_app].
  - now exists evs1.
Qed.

Lemma emits_only_bind {A B} (c : M W A) (k : A -> M W B) :
  emits_only P c -> (forall a, emits_only P (k a)) -> emits_only P (mbind c k).
Proof.
  intros Hc Hk.
  apply (emits_only_bind_post (fun _ => True)); auto.
Qed.

(** After a computation that throws, the continuation does not run. *)
Lemma emits_only_bind_throws {A B} (c : M W A) (k : A -> M W B) :
  emits_only P c -> always_throws c -> emits_only P (mbind c k).
Proof.
  intros Hc Hthrows.
  apply (emits_only_bind_post (fun _ => False)); [exact Hc | | tauto].
  intros s a s' Hrun.
  destruct (Hthrows s) as [t Ht].
  rewrite Hrun in Ht. discriminate.
Qed.

Lemma emits_only_try_catch {A} (body : M W A) (handler : thrown -> M W A) :
  emits_only P body -> (forall t, emits_only P (handler t)) ->
  emits_only P (try_catch body handler).
Proof.
  intros Hbody Hhandler s.
  unfold try_catch.
  destruct (Hbody s) as (evs1 & Htr1 & Hall1).
  destruct (body s) as [[a|t] s1]; simpl in Htr1.
  - now exists evs1.
  - destruct (Hhandler t s1) as (evs2 & Htr2 & Hall2).
    exists (evs1 ++ evs2).
    rewrite Htr2, Htr1, app_assoc.
    split; [reflexivity | now apply Forall_app].
Qed.

End Traces.

Create HintDb trace discriminated.
#[export] Hint Resolve emits_only_ret emits_only_throw emits_only_lift
  emits_only_get emits_only_set : trace.
#[export] Hint Extern 2 (emits_only _ (log _)) =>
  apply emits_only_log; reflexivity : trace.
#[export] Hint Extern 2 (emits_only _ (outside _ _)) =>
  apply emits_only_outside; reflexivity : trace.
#[export] Hint Extern 5 (emits_only _ (mbind _ _)) =>
  apply emits_only_bind; [|intros] : trace.
#[export] Hint Extern 5 (emits_only _ (try_catch _ _)) =>
  apply emits_only_try_catch; [|intros] : trace.
#[export] Hint Extern 6 (emits_only _ (if ?b then _ else _)) =>
  destruct b : trace.
#[export] Hint Extern 6 (emits_only _ (match ?o with Some _ => _ | None => _ end)) =>
  destruct o : trace.

Section QuietSteps.
Context {W : Type} (env : Env W).

Lemma getSigner_quiet : emits_only quiet (getSigner env).
Proof.
  unfold getSigner. auto with trace.
Qed.

Lemma getContracts_quiet : emits_only quiet (getContracts env).
Proof.
  unfold getContracts. auto 20 with trace.
Qed.

Lemma computeMarketId_quiet (questionHash : string) (lockTime : Z) :
  emits_only quiet (computeMarketId env questionHash lockTime).
Proof.
  unfold computeMarketId.
  pose proof getSigner_quiet. pose proof getContracts_quiet.
  auto with trace.
Qed.

Lemma catchHandler_quiet (market : MarketConfig.t) (c : Counters) (t : thrown) :
  emits_only quiet (@catchHandler W market c t).
Proof.
  unfold catchHandler. auto with trace.
Qed.

End QuietSteps.

(* ================================================================== *)
(** * The batch driver *)
(* ================================================================== *)

Section Driver.
Context {W : Type} (env : Env W).
Variable leaderboardSnapshot : list Project.t.
Variable blockTimestamp : Z.

Lemma toISOString_cases (ms : Z) :
  toISOString ms = Ok tt \/ toISOString ms = Throw (Error "Invalid time value").
Proof.
  unfold toISOString.
  destruct ((- max_time_value <=? ms) && (ms <=? max_time_value)); auto.
Qed.

Lemma processLoop_cons (market : MarketConfig.t) (rest : list MarketConfig.t)
    (c : Counters) (s : State W) :
  processLoop env leaderboardSnapshot blockTimestamp (market :: rest) c s
  = match processMarket env leaderboardSnapshot blockTimestamp market c s with
    | (Ok c', s') => processLoop env leaderboardSnapshot blockTimestamp rest c' s'
    | (Throw t, s') => (Throw t, s')
    end.
Proof. reflexivity. Qed.

Lemma processMarket_ok (market : MarketConfig.t) (c c' : Counters)
    (s s1 : State W) :
  tryBody env leaderboardSnapshot blockTimestamp market c s = (Ok c', s1) ->
  processMarket env leaderboardSnapshot blockTimestamp market c s = (Ok c', s1).
Proof.
  intros Hbody. unfold processMarket, try_catch. now rewrite Hbody.
Qed.

(** What the catch block does with an error. *)
Lemma processMarket_throw (market : MarketConfig.t) (c : Counters)
    (s s1 : State W) (t : thrown) :
  tryBody env leaderboardSnapshot blockTimestamp market c s = (Throw t, s1) ->
  processMarket env leaderboardSnapshot blockTimestamp market c s
  = if is_time_error t
    then (Ok (mkCounters (processed c) (skipped c + 1)),
          after_console_error s1 market t)
    else (Throw t, after_console_error s1 market t).
Proof.
  intros Hbody.
  unfold processMarket, try_catch. rewrite Hbody.
  unfold catchHandler, mbind, log, after_console_error.
  now destruct (is_time_error t).
Qed.

(** Past the time gate, with a resolve time that prints as a date, the try
    block is the ready processing. *)
Lemma tryBody_ready (market : MarketConfig.t) (c : Counters) (s : State W) :
  MarketConfig.resolveTime market <= blockTimestamp ->
  toISOString (MarketConfig.resolveTime market * 1000) = Ok tt ->
  tryBody env leaderboardSnapshot blockTimestamp market c s
  = resolveReady env leaderboardSnapshot blockTimestamp market c s.
Proof.
  intros Hgate Hdate.
  apply Z.ltb_ge in Hgate.
  unfold tryBody, mbind, lift.
  now rewrite Hdate, Hgate.
Qed.

(** A resolve time that does not print as a date ends the try block at its
    first log line. *)
Lemma tryBody_invalid_date (market : MarketConfig.t) (c : Counters) (s : State W) :
  toISOString (MarketConfig.resolveTime market * 1000)
  = Throw (Error "Invalid time value") ->
  tryBody env leaderboardSnapshot blockTimestamp market c s
  = (Throw (Error "Invalid time value"), s).
Proof.
  intros Hdate.
  unfold tryBody, mbind, lift.
  now rewrite Hdate.
Qed.

(** C5. A market whose resolveTime is after the chain time of the run is
    skipped: nothing leaves the process for it (no market id is resolved,
    nothing is signed, nothing is submitted), only the skipped counter goes
    up, and the loop goes on with the next market. *)
Theorem not_ready_market_is_skipped (market : MarketConfig.t)
    (rest : list MarketConfig.t) (c : Counters) (s : State W) :
  blockTimestamp < MarketConfig.resolveTime market ->
  exists s',
    processMarket env leaderboardSnapshot blockTimestamp market c s
    = (Ok (mkCounters (processed c) (skipped c + 1)), s')
    /\ world s' = world s
    /\ (exists evs, trace s' = trace s ++ evs
                    /\ Forall (fun e => leaves_process e = false) evs)
    /\ processLoop env leaderboardSnapshot blockTimestamp (market :: rest) c s
       = processLoop env leaderboardSnapshot blockTimestamp rest
                     (mkCounters (processed c) (skipped c + 1)) s'.
Proof.
  intros Hgate.
  apply Z.ltb_lt in Hgate.
  assert (Hquiet : forall s0 : State W,
             exists evs, trace s0 = trace s0 ++ evs
                         /\ Forall (fun e => leaves_process e = false) evs).
  { intros s0. exists []. now rewrite app_nil_r. }
  assert (Hlogged : forall t,
             exists evs, trace (after_console_error s market t) = trace s ++ evs
                         /\ Forall (fun e => leaves_process e = false) evs).
  { intros t. eexists. split; [reflexivity|]. now constructor. }
  assert (Hbody :
    tryBody env leaderboardSnapshot blockTimestamp market c s
    = (Ok (mkCounters (processed c) (skipped c + 1)), s)
    \/ tryBody env leaderboardSnapshot blockTimestamp market c s
       = (Throw (Error "Invalid time value"), s)).
  { unfold tryBody, mbind, lift.
    destruct (toISOString_cases (MarketConfig.resolveTime market * 1000))
      as [Hd | Hd]; rewrite Hd; [|now right].
    rewrite Hgate. unfold mbind, lift.
    destruct (toISOString_cases (blockTimestamp * 1000))
      as [Hb | Hb]; rewrite Hb; [|now right].
    now left. }
  destruct Hbody as [Hbody | Hbody].
  - exists s.
    rewrite processLoop_cons, (processMarket_ok _ _ _ _ _ Hbody).
    auto.
  - exists (after_console_error s market (Error "Invalid time value")).
    rewrite processLoop_cons, (processMarket_throw _ _ _ _ _ Hbody).
    simpl is_time_error. cbv iota.
    auto.
Qed.

(** C7. When the ready processing of a market (what runs once the time
    gate let it through) throws an Error whose message contains "time", the
    market is counted as skipped: the iteration ends normally with the
    skipped counter one higher, and the loop goes on with the next market.
    The state it goes on from is the one the failed processing left, with
    the error printed. *)
Theorem time_error_is_skipped (market : MarketConfig.t)
    (rest : list MarketConfig.t) (c : Counters) (s s1 : State W)
    (message : string) :
  MarketConfig.resolveTime market <= blockTimestamp ->
  resolveReady env leaderboardSnapshot blockTimestamp market c s
  = (Throw (Error message), s1) ->
  includes message "time" = true ->
  exists s',
    processMarket env leaderboardSnapshot blockTimestamp market c s
    = (Ok (mkCounters (processed c) (skipped c + 1)), s')
    /\ processLoop env leaderboardSnapshot blockTimestamp (market :: rest) c s
       = processLoop env leaderboardSnapshot blockTimestamp rest
                     (mkCounters (processed c) (skipped c + 1)) s'
    /\ (toISOString (MarketConfig.resolveTime market * 1000) = Ok tt ->
        s' = after_console_error s1 market (Error message)).
Proof.
  intros Hgate Hready Htime.
  destruct (toISOString_cases (MarketConfig.resolveTime market * 1000))
    as [Hdate | Hdate].
  - exists (after_console_error s1 market (Error message)).
    assert (Hbody : tryBody env leaderboardSnapshot blockTimestamp market c s
                    = (Throw (Error message), s1))
      by (rewrite tryBody_ready; assumption).
    rewrite processLoop_cons, (processMarket_throw _ _ _ _ _ Hbody).
    simpl is_time_error. rewrite Htime.
    auto.
  - exists (after_console_error s market (Error "Invalid time value")).
    rewrite processLoop_cons,
      (processMarket_throw _ _ _ _ _ (tryBody_invalid_date market c s Hdate)).
    simpl is_time_error. cbv iota.
    split; [reflexivity|]. split; [reflexivity|].
    intros Hok. rewrite Hdate in Hok. discriminate.
Qed.


(** C6. With marketId unset, createResolution throws the 'Market ID not
    set' error and does nothing else: the state is untouched, so nothing was
    determined or signed.  With marketId set, a resolution it returns
    carries that id, challengeUntil = 0, and nonce = resolvedAt = the
    timestamp it was given. *)
Theorem createResolution_marketId (market : MarketConfig.t) (s : State W) :
  (MarketConfig.marketId market = None ->
   createResolution env market leaderboardSnapshot blockTimestamp s
   = (Throw (Error ("Market ID not set for market: "
                    ++ MarketConfig.questionHash market)), s))
  /\
  (forall id resolution signature s',
     MarketConfig.marketId market = Some id ->
     createResolution env market leaderboardSnapshot blockTimestamp s
     = (Ok (resolution, signature), s') ->
     Resolution.marketId resolution = id
     /\ Resolution.challengeUntil resolution = 0
     /\ Resolution.resolvedAt resolution = blockTimestamp
     /\ Resolution.nonce resolution = Resolution.resolvedAt resolution).
Proof.
  unfold createResolution.
  split.
  - intros Hunset. now rewrite Hunset.
  - intros id resolution signature s' Hset. rewrite Hset.
    unfold mbind, lift, ret.
    destruct (determineWinner market leaderboardSnapshot) as [d|]; [|discriminate].
    destruct (getSigner env s) as [[[]|] s1]; [|discriminate].
    destruct (getContracts env s1) as [[contracts|] s2]; [|discriminate].
    destruct (generateBlobHash _ _ _ _ _ _ _) as [blob|]; [|discriminate].
    unfold outside.
    destruct (signer_signMessage env blob (world s2)) as [[sig|] w']; [|discriminate].
    intros Hrun. inversion Hrun. subst.
    simpl. auto.
Qed.

(** With its market id known and its subject missing, a market makes
    createResolution throw the not-found error before anything else
    happens. *)
Lemma createResolution_not_found (market : MarketConfig.t) (s : State W) :
  MarketConfig.marketId market <> None ->
  subject_absent market leaderboardSnapshot ->
  createResolution env market leaderboardSnapshot blockTimestamp s
  = (Throw (not_found_error market), s).
Proof.
  intros Hset Habs.
  unfold createResolution.
  destruct (MarketConfig.marketId market) as [id|]; [|contradiction].
  unfold mbind, lift.
  now rewrite (determineWinner_subject_absent _ _ Habs).
Qed.

Lemma subject_absent_with_marketId (market : MarketConfig.t) (id : bytes) :
  subject_absent market leaderboardSnapshot ->
  subject_absent (MarketConfig.with_marketId market id) leaderboardSnapshot.
Proof.
  destruct market. exact (fun H => H).
Qed.

(** C9. For a ready market whose subject is missing from the snapshot:
    once its market id is known, createResolution throws the not-found
    error and leaves the state as it was; if the id was set from the start
    the try block ends with that error before any outside call; and in every
    case the processing of the market by the batch driver records no sign
    event and no submit event. *)
Theorem not_found_precedes_sign_and_submit (market : MarketConfig.t)
    (c : Counters) (s : State W) :
  MarketConfig.resolveTime market <= blockTimestamp ->
  subject_absent market leaderboardSnapshot ->
  (forall id s0,
     createResolution env (MarketConfig.with_marketId market id)
                      leaderboardSnapshot blockTimestamp s0
     = (Throw (not_found_error market), s0))
  /\ (MarketConfig.marketId market <> None ->
      toISOString (MarketConfig.resolveTime market * 1000) = Ok tt ->
      tryBody env leaderboardSnapshot blockTimestamp market c s
      = (Throw (not_found_error market), s))
  /\ (exists evs,
        trace (snd (processMarket env leaderboardSnapshot blockTimestamp market c s))
        = trace s ++ evs
        /\ Forall (fun e => signs_or_submits e = false) evs).
Proof.
  intros Hgate Habs.
  split; [|split].
  - intros id s0.
    rewrite createResolution_not_found.
    + now destruct market.
    + discriminate.
    + now apply subject_absent_with_marketId.
  - intros Hset Hdate.
    rewrite (tryBody_ready market c s Hgate Hdate).
    unfold resolveReady.
    destruct (MarketConfig.marketId market) as [id|] eqn:Hid; [|contradiction].
    unfold mbind, ret.
    rewrite createResolution_not_found;
      [reflexivity | congruence | exact Habs].
  - assert (Hquiet : emits_only quiet
              (processMarket env leaderboardSnapshot blockTimestamp market c)).
    { unfold processMarket.
      apply emits_only_try_catch; [|intros t; apply catchHandler_quiet].
      unfold tryBody.
      apply emits_only_bind; [auto with trace|]. intros _.
      destruct (blockTimestamp <? MarketConfig.resolveTime market);
        [auto 10 with trace|].
      unfold resolveReady.
      apply (emits_only_bind_post quiet
               (fun m => MarketConfig.marketId m <> None
                         /\ subject_absent m leaderboardSnapshot)).
      - destruct (MarketConfig.marketId market);
          pose proof (computeMarketId_quiet env) as Hcompute;
          auto with trace.
      - intros s0 m s0'.
        destruct (MarketConfig.marketId market) as [id|] eqn:Hid.
        + unfold ret. intros Hrun. inversion Hrun. subst m.
          split; [congruence | exact Habs].
        + unfold mbind, ret.
          destruct (computeMarketId env _ _ s0) as [[id|] s1]; [|discriminate].
          intros Hrun. inversion Hrun. subst m.
          split; [discriminate | now apply subject_absent_with_marketId].
      - intros m [Hset Hm].
        apply emits_only_bind_throws.
        + intros s0. exists [].
          rewrite (createResolution_not_found m s0 Hset Hm).
          simpl. now rewrite app_nil_r.
        + intros s0. eexists.
          now rewrite (createResolution_not_found m s0 Hset Hm). }
    destruct (Hquiet s) as (evs & Htrace & Hall).
    exists evs. split; [exact Htrace|].
    eapply Forall_impl; [|exact Hall].
    intros e He. unfold quiet in He.
    now apply Bool.negb_true_iff in He.
Qed.

End Driver.

(* ================================================================== *)
(** * The scenarios of the specification, run *)
(* ================================================================== *)

(** Scenario A: the entry at rank 10 wins a threshold market, the entry at
    rank 11 does not. *)
Example scenario_A :
  (exists h, determineWinner (top10_market "Curve" now None) sample_leaderboard
             = Ok (Determined.mk 1 h))
  /\ (exists h, determineWinner (top10_market "Maker" now None) sample_leaderboard
                = Ok (Determined.mk 2 h)).
Proof.
  split; eexists; reflexivity.
Qed.

(** Scenario B: rank 3 against rank 7. *)
Example scenario_B :
  exists h, determineWinner (h2h_market "Jupiter" "Aave" now None) sample_leaderboard
            = Ok (Determined.mk 1 h).
Proof.
  eexists; reflexivity.
Qed.

(** Two entries with the same rank: the second subject wins. *)
Example equal_ranks_give_2 :
  exists h, determineWinner (h2h_market "A" "B" now None) [entry "A" 4; entry "B" 4]
            = Ok (Determined.mk 2 h).
Proof.
  eexists; reflexivity.
Qed.

(** Scenario D: a subject that is not in the snapshot. *)
Example scenario_D :
  determineWinner (top10_market "Foo" now None) sample_leaderboard
  = Throw (Error "Project Foo not found in leaderboard").
Proof.
  reflexivity.
Qed.

Lemma Foo_absent : absent (Some "Foo"%string) sample_leaderboard.
Proof.
  intros p Hin.
  simpl in Hin.
  repeat (destruct Hin as [<- | Hin]; [discriminate|]).
  destruct Hin.
Defined.

Lemma determineWinner_top10_witness :
  exists p d,
    first_named "Curve" sample_leaderboard p
    /\ determineWinner (top10_market "Curve" now None) sample_leaderboard = Ok d
    /\ (Project.rank p <= 10 -> Determined.winner d = 1)
    /\ (10 < Project.rank p -> Determined.winner d = 2).
Proof.
  apply (proj2 (determineWinner_top10 (top10_market "Curve" now None)
                                      sample_leaderboard eq_refl)
               "Curve"%string eq_refl).
  exists (entry "Curve" 10).
  split; [simpl; tauto | reflexivity].
Defined.

Lemma determineWinner_h2h_witness :
  exists pa pb d,
    first_named "Jupiter" sample_leaderboard pa
    /\ first_named "Aave" sample_leaderboard pb
    /\ determineWinner (h2h_market "Jupiter" "Aave" now None) sample_leaderboard
       = Ok d
    /\ (Project.rank pa < Project.rank pb -> Determined.winner d = 1)
    /\ (Project.rank pb <= Project.rank pa -> Determined.winner d = 2)
    /\ (Project.rank pa = Project.rank pb -> Determined.winner d = 2).
Proof.
  apply (proj2 (determineWinner_h2h (h2h_market "Jupiter" "Aave" now None)
                                    sample_leaderboard eq_refl)
               "Jupiter"%string "Aave"%string eq_refl eq_refl).
  - exists (entry "Jupiter" 3). split; [simpl; tauto | reflexivity].
  - exists (entry "Aave" 7). split; [simpl; tauto | reflexivity].
Defined.

Lemma snapshotHash_independent_of_market_witness :
  let h := hashJson (JSON_stringify sample_leaderboard) in
  Determined.snapshotHash (Determined.mk 2 h)
  = Determined.snapshotHash (Determined.mk 1 h)
  /\ Determined.snapshotHash (Determined.mk 2 h)
     = keccak256 (toUtf8Bytes (JSON_stringify sample_leaderboard)).
Proof.
  intros h.
  apply (snapshotHash_independent_of_market sample_leaderboard
           (top10_market "Maker" now None)
           (h2h_market "Jupiter" "Aave" now None)
           (Determined.mk 2 h) (Determined.mk 1 h)).
  - reflexivity.
  - reflexivity.
Defined.


(** Scenario C: a market that resolves 100 seconds after the chain time. *)
Lemma not_ready_market_is_skipped_witness :
  let late := top10_market "Scroll" (now + 100) None in
  let next := top10_market "Curve" (now - 100) (Some an_id) in
  let env := sample_env now [late; next] (Ok "0xtx"%string) in
  exists s',
    processMarket env sample_leaderboard now late (mkCounters 3 1) sample_state
    = (Ok (mkCounters 3 2), s')
    /\ world s' = world sample_state
    /\ (exists evs, trace s' = trace sample_state ++ evs
                    /\ Forall (fun e => leaves_process e = false) evs)
    /\ processLoop env sample_leaderboard now [late; next] (mkCounters 3 1)
                   sample_state
       = processLoop env sample_leaderboard now [next] (mkCounters 3 2) s'.
Proof.
  intros late next env.
  apply (not_ready_market_is_skipped env sample_leaderboard now late [next]
           (mkCounters 3 1) sample_state).
  reflexivity.
Defined.

Lemma time_error_is_skipped_witness :
  let market := top10_market "Curve" (now - 100) (Some an_id) in
  let next := top10_market "Scroll" (now - 100) (Some an_id) in
  let env := sample_env now [market; next] (Throw time_revert) in
  let s1 := snd (resolveReady env sample_leaderboard now market (mkCounters 0 0)
                              sample_state) in
  exists s',
    processMarket env sample_leaderboard now market (mkCounters 0 0) sample_state
    = (Ok (mkCounters 0 1), s')
    /\ processLoop env sample_leaderboard now [market; next] (mkCounters 0 0)
                   sample_state
       = processLoop env sample_leaderboard now [next] (mkCounters 0 1) s'
    /\ (toISOString (MarketConfig.resolveTime market * 1000) = Ok tt ->
        s' = after_console_error s1 market time_revert).
Proof.
  intros market next env s1.
  apply (time_error_is_skipped env sample_leaderboard now market [next]
           (mkCounters 0 0) sample_state s1
           "execution reverted: resolve time not reached").
  - discriminate.
  - vm_compute. reflexivity.
  - reflexivity.
Defined.



Lemma createResolution_marketId_witness :
  let unset := top10_market "Curve" (now - 100) None in
  let set := top10_market "Curve" (now - 100) (Some an_id) in
  let env := sample_env now [unset; set] (Ok "0xtx"%string) in
  let run := createResolution env set sample_leaderboard now sample_state in
  createResolution env unset sample_leaderboard now sample_state
  = (Throw (Error ("Market ID not set for market: " ++ question_hash "Curve")),
     sample_state)
  /\ exists resolution signature,
       fst run = Ok (resolution, signature)
       /\ Resolution.marketId resolution = an_id
       /\ Resolution.challengeUntil resolution = 0
       /\ Resolution.resolvedAt resolution = now
       /\ Resolution.nonce resolution = Resolution.resolvedAt resolution.
Proof.
  intros unset set env run.
  split.
  - exact (proj1 (createResolution_marketId env sample_leaderboard now unset
                                            sample_state) eq_refl).
  - assert (Hrun : run
                   = (Ok (Resolution.mk an_id 1
                            (hashJson (JSON_stringify sample_leaderboard))
                            now 0 now,
                          repeat x5a 65),
                      snd run))
      by (vm_compute; reflexivity).
    eexists. eexists.
    split; [rewrite Hrun; reflexivity|].
    exact (proj2 (createResolution_marketId env sample_leaderboard now set
                                            sample_state)
                 an_id _ _ _ eq_refl Hrun).
Defined.

Lemma not_found_precedes_sign_and_submit_witness :
  let market := top10_market "Foo" (now - 100) (Some an_id) in
  let env := sample_env now [market] (Ok "0xtx"%string) in
  (forall id s0,
     createResolution env (MarketConfig.with_marketId market id)
                      sample_leaderboard now s0
     = (Throw (not_found_error market), s0))
  /\ tryBody env sample_leaderboard now market (mkCounters 0 0) sample_state
     = (Throw (Error "Project Foo not found in leaderboard"), sample_state)
  /\ (exists evs,
        trace (snd (processMarket env sample_leaderboard now market
                                  (mkCounters 0 0) sample_state))
        = trace sample_state ++ evs
        /\ Forall (fun e => signs_or_submits e = false) evs).
Proof.
  intros market env.
  destruct (not_found_precedes_sign_and_submit env sample_leaderboard now
              market (mkCounters 0 0) sample_state)
    as (Hcreate & Hbody & Htrace).
  - discriminate.
  - left. split; [reflexivity | exact Foo_absent].
  - split; [exact Hcreate|].
    split; [|exact Htrace].
    apply Hbody; [discriminate | reflexivity].
Defined.

(** Scenario C, end to end: a batch of a market that resolves 100 seconds
    after the chain time and a ready one.  The first is skipped, the second
    is resolved and posted, and the run reports one of each. *)
Example scenario_C_batch :
  let late := top10_market "Scroll" (now + 100) None in
  let ready := h2h_market "Jupiter" "Aave" (now - 100) None in
  let env := sample_env now [late; ready] (Ok "0xtx"%string) in
  let run := processMarkets env sample_state in
  let id :=
    match fst (sample_factory (ContractAddresses.marketFactory sample_addresses)
                              (MarketConfig.questionHash ready)
                              (MarketConfig.lockTime ready) O) with
    | Ok id => id
    | Throw _ => []
    end in
  fst run = Ok tt
  /\ world (snd run) = 1%nat
  /\ filter leaves_process (trace (snd run))
     = [ Fetch "/api/leaderboard/today"; Fetch "/api/markets"; GetBlock;
         Fetch "/api/contracts";
         CallComputeMarketId (ContractAddresses.marketFactory sample_addresses)
                             (question_hash "Jupiter vs Aave")
                             (now - 100 - 3600);
         Fetch "/api/contracts";
         SignMessage
           (match generateBlobHash id 1
                    (hashJson (JSON_stringify sample_leaderboard)) now 0 now
                    (ContractAddresses.settlementOracle sample_addresses) with
            | Ok blob => blob
            | Throw _ => []
            end);
         Fetch "/api/contracts";
         CallPost (ContractAddresses.settlementOracle sample_addresses)
                  (id, 1,
                   hashJson (JSON_stringify sample_leaderboard), now, 0, now)
                  (repeat x5a 65);
         WaitReceipt "0xtx" ]
  /\ last (trace (snd run)) GetBlock = Summary 1 1.
Proof.
  vm_compute. repeat split.
Qed.

(* ================================================================== *)
(** * Shuffling and re-ranking *)
(* ================================================================== *)

Section Shuffle.
Context {T : Type}.

Lemma set_index_length (a : list T) (i : nat) (v : T) :
  List.length (set_index a i v) = List.length a.
Proof.
  revert i. induction a as [|x a IH]; intros [|i]; simpl; auto.
Qed.

Lemma swap_length (a : list T) (i j : nat) :
  List.length (swap a i j) = List.length a.
Proof.
  unfold swap.
  destruct (nth_error a i), (nth_error a j); auto.
  now rewrite !set_index_length.
Qed.

(** Taking the element at [j] out to the front and putting [x] in its place
    is the same, up to order, as putting [x] in front. *)
Lemma set_index_Permutation (a : list T) (j : nat) (x y : T) :
  nth_error a j = Some y ->
  Permutation (y :: set_index a j x) (x :: a).
Proof.
  revert j. induction a as [|z a IH]; intros [|j] Hj; simpl in *;
    try discriminate.
  - inversion Hj. subst. apply perm_swap.
  - etransitivity; [apply perm_swap|].
    etransitivity; [|apply perm_swap].
    apply perm_skip. now apply IH.
Qed.

Lemma swap_Permutation (a : list T) (i j : nat) : Permutation (swap a i j) a.
Proof.
  unfold swap.
  destruct (nth_error a i) as [ai|] eqn:Hi; [|reflexivity].
  destruct (nth_error a j) as [aj|] eqn:Hj; [|reflexivity].
  revert i j Hi Hj.
  induction a as [|x a IH]; intros [|i] [|j] Hi Hj; simpl in *;
    try discriminate.
  - inversion Hi. inversion Hj. now subst.
  - inversion Hi. subst. now apply set_index_Permutation.
  - inversion Hj. subst. now apply set_index_Permutation.
  - apply perm_skip. now apply IH.
Qed.

Lemma shuffle_loop_Permutation (random : nat -> Q) (i : nat) :
  forall (calls : nat) (a : list T),
    Permutation (shuffle_loop random calls i a) a.
Proof.
  induction i as [|i IH]; intros calls a; simpl.
  - reflexivity.
  - rewrite IH. apply swap_Permutation.
Qed.

End Shuffle.

(** [Math.floor(Math.random() * (i + 1))] is an index from 0 to [i]. *)
Lemma random_index_le (r : Q) (i : nat) :
  (0 <= r)%Q -> (r < 1)%Q -> (random_index r i <= i)%nat.
Proof.
  intros Hlo Hhi.
  unfold random_index.
  set (n := Z.of_nat (i + 1)).
  assert (Hn : (0 < inject_Z n)%Q).
  { change (inject_Z 0 < inject_Z n)%Q.
    rewrite <- Zlt_Qlt. unfold n. lia. }
  assert (Hlt : (Qfloor (r * inject_Z n) < n)%Z).
  { rewrite Zlt_Qlt.
    apply Qle_lt_trans with (r * inject_Z n)%Q; [apply Qfloor_le|].
    setoid_replace (inject_Z n) with (1 * inject_Z n)%Q at 2 by ring.
    now apply Qmult_lt_compat_r. }
  subst n. lia.
Qed.

(** In every round of the shuffle both swapped indices are inside the
    array. *)
Lemma shuffle_loop_in_bounds (random : nat -> Q) (calls i : nat) :
  in_unit_interval random ->
  (random_index (random calls) i <= i)%nat.
Proof.
  intros Hrandom. destruct (Hrandom calls). now apply random_index_le.
Qed.

(** X1. shuffleArray returns a rearrangement of its input: the same
    elements with the same multiplicities, whatever Math.random returns. *)
Theorem shuffleArray_Permutation {T : Type} (random : nat -> Q)
    (array : list T) :
  in_unit_interval random ->
  Permutation (shuffleArray random array) array
  /\ List.length (shuffleArray random array) = List.length array.
Proof.
  intros _.
  assert (Hperm : Permutation (shuffleArray random array) array)
    by apply shuffle_loop_Permutation.
  split; [exact Hperm | now apply Permutation_length].
Qed.

Section Rerank.

Lemma rerank_length (k : nat) (l : list Project.t) :
  List.length (rerank k l) = List.length l.
Proof.
  revert k. induction l as [|p l IH]; intros k; simpl; auto.
Qed.

Lemma rerank_ranks (l : list Project.t) :
  forall k, map Project.rank (rerank k l)
            = map (fun index => Z.of_nat index + 1) (seq k (List.length l)).
Proof.
  induction l as [|p l IH]; intros k; simpl.
  - reflexivity.
  - now rewrite IH.
Qed.

Lemma rerank_unranked (l : list Project.t) :
  forall k, map unranked (rerank k l) = map unranked l.
Proof.
  induction l as [|p l IH]; intros k; simpl.
  - reflexivity.
  - now rewrite IH.
Qed.

Lemma ranks_from_NoDup (n : nat) :
  forall k, NoDup (map (fun index => Z.of_nat index + 1) (seq k n)).
Proof.
  induction n as [|n IH]; intros k; simpl.
  - constructor.
  - constructor; [|apply IH].
    intros Hin. apply in_map_iff in Hin as (index & Heq & Hin).
    apply in_seq in Hin. lia.
Qed.

(** Every rank handed out from index [k] on is above [k]. *)
Lemma In_rerank_rank (l : list Project.t) :
  forall k p, In p (rerank k l) -> Z.of_nat k + 1 <= Project.rank p.
Proof.
  induction l as [|e l IH]; intros k p Hin; simpl in Hin.
  - destruct Hin.
  - destruct Hin as [<- | Hin]; simpl; [lia|].
    apply IH in Hin. lia.
Qed.

(** Two entries of a re-ranked list with the same rank are the same
    entry. *)
Lemma rerank_rank_inj (l : list Project.t) :
  forall k p q,
    In p (rerank k l) -> In q (rerank k l) ->
    Project.rank p = Project.rank q -> p = q.
Proof.
  induction l as [|e l IH]; intros k p q Hp Hq Hrank; simpl in Hp, Hq.
  - destruct Hp.
  - destruct Hp as [<- | Hp], Hq as [<- | Hq].
    + reflexivity.
    + apply In_rerank_rank in Hq. simpl in Hrank. lia.
    + apply In_rerank_rank in Hp. simpl in Hrank. lia.
    + now apply (IH (S k)).
Qed.

(** In a re-ranked list, the first entry that matches is within rank
    [k + n] exactly when some matching entry is among the first [n]. *)
Lemma find_rerank_firstn (x : option string) (l : list Project.t) :
  forall k n p,
    find (name_is x) (rerank k l) = Some p ->
    (Project.rank p <= Z.of_nat k + Z.of_nat n
     <-> exists q, In q (firstn n (rerank k l)) /\ name_is x q = true).
Proof.
  induction l as [|e l IH]; intros k n p Hfind; simpl in Hfind.
  - discriminate.
  - set (e' := Project.mk (Project.name e) (Z.of_nat k + 1)
                          (Project.score e) (Project.logo e)) in *.
    simpl rerank. fold e'.
    destruct (name_is x e') eqn:He.
    + inversion Hfind. subst p. simpl.
      destruct n as [|n]; simpl.
      * split; [lia | intros (q & [] & _)].
      * split; [intros _; exists e'; auto | lia].
    + assert (Hin : In p (rerank (S k) l)) by (apply find_some in Hfind; tauto).
      apply In_rerank_rank in Hin.
      destruct n as [|n]; simpl.
      * split; [lia | intros (q & [] & _)].
      * specialize (IH (S k) n p Hfind).
        split.
        -- intros Hr. destruct IH as [IH _].
           destruct IH as (q & Hq & Hname); [lia|].
           exists q. auto.
        -- intros (q & [<- | Hq] & Hname); [congruence|].
           destruct IH as [_ IH].
           assert (Project.rank p <= Z.of_nat (S k) + Z.of_nat n)
             by (apply IH; now exists q).
           lia.
Qed.

End Rerank.

Section ShuffleMap.
Context {A B : Type} (f : A -> B).

Lemma set_index_map (a : list A) (i : nat) (v : A) :
  set_index (map f a) i (f v) = map f (set_index a i v).
Proof.
  revert i. induction a as [|x a IH]; intros [|i]; simpl; auto.
  now rewrite IH.
Qed.

Lemma swap_map (a : list A) (i j : nat) :
  swap (map f a) i j = map f (swap a i j).
Proof.
  unfold swap.
  rewrite !nth_error_map.
  destruct (nth_error a i), (nth_error a j); simpl; auto.
  now rewrite !set_index_map.
Qed.

(** The shuffle moves elements without looking at them. *)
Lemma shuffleArray_map (random : nat -> Q) (a : list A) :
  shuffleArray random (map f a) = map f (shuffleArray random a).
Proof.
  unfold shuffleArray. rewrite length_map.
  generalize (List.length a - 1)%nat as i.
  generalize 0%nat as calls.
  intros calls i. revert calls a.
  induction i as [|i IH]; intros calls a; simpl.
  - reflexivity.
  - now rewrite swap_map, IH.
Qed.

End ShuffleMap.

Lemma rerank_ext (l1 : list Project.t) :
  forall l2 k, map unranked l1 = map unranked l2 -> rerank k l1 = rerank k l2.
Proof.
  induction l1 as [|p l1 IH]; intros [|q l2] k Heq; simpl in *;
    try discriminate; auto.
  inversion Heq as [[Hname Hscore Hlogo Hrest]].
  now rewrite Hname, Hscore, Hlogo, (IH l2 (S k) Hrest).
Qed.

(** X2. randomizeLeaderboard hands out the ranks 1, 2, ..., n in the order
    of the shuffled list: the result has as many entries as the input, the
    entry at position i has rank i + 1, and no rank occurs twice. *)
Theorem randomizeLeaderboard_ranks (random : nat -> Q)
    (leaderboard : list Project.t) :
  in_unit_interval random ->
  List.length (randomizeLeaderboard random leaderboard) = List.length leaderboard
  /\ map Project.rank (randomizeLeaderboard random leaderboard)
     = ranks_upto (List.length leaderboard)
  /\ NoDup (map Project.rank (randomizeLeaderboard random leaderboard)).
Proof.
  intros _.
  unfold randomizeLeaderboard, ranks_upto.
  assert (Hlen : List.length (shuffleArray random leaderboard)
                 = List.length leaderboard)
    by (apply Permutation_length, shuffle_loop_Permutation).
  rewrite rerank_length, rerank_ranks, Hlen.
  split; [reflexivity|]. split; [reflexivity|].
  apply ranks_from_NoDup.
Qed.

(** X3. randomizeLeaderboard keeps the entries: apart from the ranks, the
    result holds the same (name, score, logo) triples as the input, each as
    often, in some order. *)
Theorem randomizeLeaderboard_keeps_entries (random : nat -> Q)
    (leaderboard : list Project.t) :
  in_unit_interval random ->
  Permutation (map unranked (randomizeLeaderboard random leaderboard))
              (map unranked leaderboard).
Proof.
  intros _.
  unfold randomizeLeaderboard.
  rewrite rerank_unranked.
  apply Permutation_map, shuffle_loop_Permutation.
Qed.

(** X4. randomizeLeaderboard discards the ranks it is given: two
    leaderboards that differ in their ranks only are randomized to the same
    result by the same random values. *)
Theorem randomizeLeaderboard_ignores_ranks (random : nat -> Q)
    (leaderboard1 leaderboard2 : list Project.t) :
  in_unit_interval random ->
  map unranked leaderboard1 = map unranked leaderboard2 ->
  randomizeLeaderboard random leaderboard1
  = randomizeLeaderboard random leaderboard2.
Proof.
  intros _ Hsame.
  unfold randomizeLeaderboard.
  apply rerank_ext.
  now rewrite <- !shuffleArray_map, Hsame.
Qed.

Section WinnerMore.

Lemma find_present (x : option string) (snapshot : list Project.t) :
  (exists p, find (name_is x) snapshot = Some p) <-> present x snapshot.
Proof.
  split.
  - intros (p & Hfind). apply find_some in Hfind as [Hin Hp].
    apply name_is_true in Hp. now exists p.
  - intros (q & Hin & Hq).
    destruct (find (name_is x) snapshot) as [p|] eqn:Hfind; [now exists p|].
    pose proof (find_none _ _ Hfind q Hin) as Hno.
    apply name_is_true in Hq. congruence.
Qed.

(** X5. determineWinner returns exactly for a 'top10' market whose subject
    is in the snapshot and for an 'h2h' market whose two subjects are; for
    any other market type and for a missing subject it throws.  When it
    returns, the winner is 1 or 2. *)
Theorem determineWinner_returns_iff (market : MarketConfig.t)
    (snapshot : list Project.t) :
  ((exists d, determineWinner market snapshot = Ok d)
   <-> (MarketConfig.type market = "top10"%string
        /\ present (MarketConfig.projectName market) snapshot)
       \/ (MarketConfig.type market = "h2h"%string
           /\ present (MarketConfig.projectA market) snapshot
           /\ present (MarketConfig.projectB market) snapshot))
  /\ (forall d, determineWinner market snapshot = Ok d ->
                Determined.winner d = 1 \/ Determined.winner d = 2).
Proof.
  unfold determineWinner.
  destruct (String.eqb_spec (MarketConfig.type market) "top10") as [Htop | Htop].
  - pose proof (find_present (MarketConfig.projectName market) snapshot) as Hp.
    destruct (find _ snapshot) as [p|].
    + split.
      * split; [intros _; left; split; [exact Htop | apply Hp; now exists p]
               | intros _; eexists; reflexivity].
      * intros d Hd. inversion Hd. simpl.
        destruct (Project.rank p <=? 10); auto.
    + split; [|discriminate].
      split; [intros (d & Hd); discriminate|].
      intros [[_ Hpres] | [Hh2h _]].
      * apply Hp in Hpres as (p & Hfind). discriminate.
      * rewrite Htop in Hh2h. discriminate.
  - destruct (String.eqb_spec (MarketConfig.type market) "h2h") as [Hh | Hh].
    + pose proof (find_present (MarketConfig.projectA market) snapshot) as Ha.
      pose proof (find_present (MarketConfig.projectB market) snapshot) as Hb.
      destruct (find (name_is (MarketConfig.projectA market)) snapshot) as [a|];
        destruct (find (name_is (MarketConfig.projectB market)) snapshot) as [b|].
      * split.
        -- split; [|intros _; eexists; reflexivity].
           intros _. right.
           split; [exact Hh|].
           split; [apply Ha; now exists a | apply Hb; now exists b].
        -- intros d Hd. inversion Hd. simpl.
           destruct (Project.rank a <? Project.rank b); auto.
      * split; [|discriminate].
        split; [intros (d & Hd); discriminate|].
        intros [[Ht _] | (_ & _ & Hpres)]; [contradiction|].
        apply Hb in Hpres as (p & Hfind). discriminate.
      * split; [|discriminate].
        split; [intros (d & Hd); discriminate|].
        intros [[Ht _] | (_ & Hpres & _)]; [contradiction|].
        apply Ha in Hpres as (p & Hfind). discriminate.
      * split; [|discriminate].
        split; [intros (d & Hd); discriminate|].
        intros [[Ht _] | (_ & Hpres & _)]; [contradiction|].
        apply Ha in Hpres as (p & Hfind). discriminate.
    + split; [|discriminate].
      split; [intros (d & Hd); discriminate|].
      intros [[Ht _] | [Ht _]]; contradiction.
Qed.

(** X6. On a leaderboard that randomizeLeaderboard produced, a 'top10'
    market is won (winner 1) exactly when an entry with the subject's name
    is among the first ten entries of the list. *)
Theorem top10_on_randomized_leaderboard (random : nat -> Q)
    (leaderboard : list Project.t) (market : MarketConfig.t)
    (d : Determined.t) :
  in_unit_interval random ->
  MarketConfig.type market = "top10"%string ->
  determineWinner market (randomizeLeaderboard random leaderboard) = Ok d ->
  (Determined.winner d = 1
   <-> exists q,
         In q (firstn 10 (randomizeLeaderboard random leaderboard))
         /\ MarketConfig.projectName market = Some (Project.name q)).
Proof.
  intros _ Htype.
  unfold determineWinner. rewrite Htype. simpl String.eqb. cbv iota.
  unfold randomizeLeaderboard.
  set (shuffled := shuffleArray random leaderboard).
  destruct (find _ (rerank 0 shuffled)) as [p|] eqn:Hfind; [|discriminate].
  intros Hd. inversion Hd. simpl.
  pose proof (find_rerank_firstn _ shuffled 0 10 p Hfind) as Hten.
  change (Z.of_nat 0 + Z.of_nat 10) with 10 in Hten.
  split.
  - intros Hw.
    destruct (Z.leb_spec (Project.rank p) 10) as [Hr | Hr]; [|discriminate].
    apply Hten in Hr as (q & Hq & Hname).
    exists q. split; [exact Hq | now apply name_is_true].
  - intros (q & Hq & Hname).
    assert (Hr : Project.rank p <= 10).
    { apply Hten. exists q. split; [exact Hq | now apply name_is_true]. }
    apply Z.leb_le in Hr. now rewrite Hr.
Qed.

(** X7. In a head-to-head market the two subjects cannot both win: when
    the market is resolved for A against B with winner 1, the market with
    the subjects exchanged is resolved with winner 2, against the same
    snapshot hash. *)
Theorem h2h_exchanged (market : MarketConfig.t) (snapshot : list Project.t)
    (d : Determined.t) :
  MarketConfig.type market = "h2h"%string ->
  determineWinner market snapshot = Ok d ->
  exists d',
    determineWinner (exchanged market) snapshot = Ok d'
    /\ Determined.snapshotHash d' = Determined.snapshotHash d
    /\ (Determined.winner d = 1 -> Determined.winner d' = 2)
    /\ (Determined.winner d' = 1 -> Determined.winner d = 2).
Proof.
  intros Htype.
  unfold determineWinner, exchanged. simpl. rewrite Htype. simpl String.eqb.
  cbv iota.
  destruct (find (name_is (MarketConfig.projectA market)) snapshot) as [a|];
    [|discriminate].
  destruct (find (name_is (MarketConfig.projectB market)) snapshot) as [b|];
    [|discriminate].
  intros Hd. inversion Hd. simpl.
  eexists. split; [reflexivity|]. simpl.
  split; [reflexivity|].
  destruct (Z.ltb_spec (Project.rank a) (Project.rank b));
    destruct (Z.ltb_spec (Project.rank b) (Project.rank a));
    split; intros; solve [reflexivity | discriminate | lia].
Qed.

(** X8. On a leaderboard that randomizeLeaderboard produced, a
    head-to-head between two different names never ties: of the market and
    the market with the subjects exchanged, exactly one has winner 1. *)
Theorem h2h_on_randomized_leaderboard (random : nat -> Q)
    (leaderboard : list Project.t) (market : MarketConfig.t)
    (d : Determined.t) :
  in_unit_interval random ->
  MarketConfig.type market = "h2h"%string ->
  MarketConfig.projectA market <> MarketConfig.projectB market ->
  determineWinner market (randomizeLeaderboard random leaderboard) = Ok d ->
  exists d',
    determineWinner (exchanged market) (randomizeLeaderboard random leaderboard)
    = Ok d'
    /\ Determined.winner d + Determined.winner d' = 3.
Proof.
  intros _ Htype Hdiff.
  unfold determineWinner, exchanged. simpl. rewrite Htype. simpl String.eqb.
  cbv iota.
  unfold randomizeLeaderboard.
  set (ranked := rerank 0 (shuffleArray random leaderboard)).
  destruct (find (name_is (MarketConfig.projectA market)) ranked) as [a|] eqn:Ha;
    [|discriminate].
  destruct (find (name_is (MarketConfig.projectB market)) ranked) as [b|] eqn:Hb;
    [|discriminate].
  intros Hd. inversion Hd. simpl.
  eexists. split; [reflexivity|]. simpl.
  apply find_some in Ha as [Hina Hnamea], Hb as [Hinb Hnameb].
  apply name_is_true in Hnamea, Hnameb.
  assert (Hranks : Project.rank a <> Project.rank b).
  { intros Heq.
    apply (rerank_rank_inj _ 0 a b Hina Hinb) in Heq.
    subst b. congruence. }
  destruct (Z.ltb_spec (Project.rank a) (Project.rank b));
    destruct (Z.ltb_spec (Project.rank b) (Project.rank a)); lia.
Qed.

End WinnerMore.

(* ================================================================== *)
(** * The pre-image of the blob hash *)
(* ================================================================== *)

Section Preimage.
Import Keccak.

Lemma Z_of_byte_of_Z (z : Z) : Z_of_byte (byte_of_Z z) = z mod 256.
Proof.
  unfold byte_of_Z, Z_of_byte.
  change 255 with (Z.ones 8).
  rewrite Z.land_ones by lia.
  change (2 ^ 8) with 256.
  pose proof (Z.mod_pos_bound z 256 ltac:(lia)) as Hrange.
  destruct (Byte.of_N (Z.to_N (z mod 256))) as [b|] eqn:Hb.
  - apply Byte.to_of_N in Hb. rewrite Hb. lia.
  - apply Byte.of_N_None_iff in Hb. lia.
Qed.

(** Writing a number on [n] bytes and reading the bytes back gives the
    number, when it fits. *)
Lemma be_value_be_bytes (n : nat) :
  forall v, 0 <= v < 256 ^ Z.of_nat n -> be_value (be_bytes n v) = v.
Proof.
  induction n as [|n IH]; intros v Hv.
  - simpl in *. unfold be_value. simpl. lia.
  - simpl be_bytes.
    rewrite be_value_snoc, Z_of_byte_of_Z.
    rewrite Nat2Z.inj_succ, Z.pow_succ_r in Hv by lia.
    rewrite IH.
    + pose proof (Z.div_mod v 256 ltac:(lia)). lia.
    + split; [apply Z.div_pos; lia | apply Z.div_lt_upper_bound; lia].
Qed.

Lemma be_bytes_inj (n : nat) (v v' : Z) :
  0 <= v < 256 ^ Z.of_nat n -> 0 <= v' < 256 ^ Z.of_nat n ->
  be_bytes n v = be_bytes n v' -> v = v'.
Proof.
  intros Hv Hv' Heq.
  rewrite <- (be_value_be_bytes n v Hv), <- (be_value_be_bytes n v' Hv').
  now rewrite Heq.
Qed.

Lemma app_inj_length {A : Type} (a a' b b' : list A) :
  List.length a = List.length a' -> a ++ b = a' ++ b' -> a = a' /\ b = b'.
Proof.
  revert a'. induction a as [|x a IH]; intros [|x' a'] Hlen Heq;
    simpl in *; try discriminate.
  - auto.
  - inversion Heq as [[Hx Hrest]]. inversion Hlen as [Hlen'].
    destruct (IH a' Hlen' Hrest) as [-> ->]. auto.
Qed.

Lemma Ok_inj {A : Type} (a b : A) : Ok a = Ok b -> a = b.
Proof. intros H. now inversion H. Qed.

Lemma encode_word_bytes32_eq (d w : bytes) :
  encode_word bytes32 (Hex d) = Ok w -> w = d.
Proof.
  unfold encode_word, Hex. rewrite getBytes_hexlify. cbn [JS.bind].
  destruct (List.length d =? 32)%nat; [|discriminate].
  intros H. now inversion H.
Qed.



(** The coder returns only for values that fit their types, and what it
    returns is their eight words. *)
Lemma AbiCoder_encode_blob_inv (typeHash marketId : bytes) (winner : Z)
    (snapshotHash : bytes) (resolvedAt challengeUntil nonce : Z)
    (oracleAddress : string) (encoded : bytes) :
  AbiCoder_encode blob_types
    [Hex typeHash; Hex marketId; Num winner; Hex snapshotHash; Num resolvedAt;
     Num challengeUntil; Big nonce; Str oracleAddress]
  = Ok encoded ->
  List.length typeHash = 32%nat
  /\ List.length marketId = 32%nat
  /\ 0 <= winner < 2 ^ 8
  /\ List.length snapshotHash = 32%nat
  /\ 0 <= resolvedAt < 2 ^ 64
  /\ 0 <= challengeUntil < 2 ^ 64
  /\ 0 <= nonce < 2 ^ 256
  /\ exists number,
       address_number oracleAddress = Ok number
       /\ 0 <= number < 2 ^ 256
       /\ encoded
          = typeHash ++ marketId ++ be_bytes 32 winner ++ snapshotHash
            ++ be_bytes 32 resolvedAt ++ be_bytes 32 challengeUntil
            ++ be_bytes 32 nonce ++ be_bytes 32 number.
Proof.
  unfold AbiCoder_encode, blob_types.
  cbn [List.length Nat.eqb negb types_of_names type_of_name String.eqb
       Ascii.eqb Bool.eqb JS.bind encode_words].
  destruct (encode_word bytes32 (Hex typeHash)) as [w0|] eqn:H0; [|discriminate].
  destruct (encode_word bytes32 (Hex marketId)) as [w1|] eqn:H1; [|discriminate].
  destruct (encode_word (uint 8) (Num winner)) as [w2|] eqn:H2; [|discriminate].
  destruct (encode_word bytes32 (Hex snapshotHash)) as [w3|] eqn:H3; [|discriminate].
  destruct (encode_word (uint 64) (Num resolvedAt)) as [w4|] eqn:H4; [|discriminate].
  destruct (encode_word (uint 64) (Num challengeUntil)) as [w5|] eqn:H5; [|discriminate].
  destruct (encode_word (uint 256) (Big nonce)) as [w6|] eqn:H6; [|discriminate].
  destruct (encode_word address (Str oracleAddress)) as [w7|] eqn:H7; [|discriminate].
  intros Henc. apply Ok_inj in Henc. rewrite app_nil_r in Henc.
  pose proof (encode_word_bytes32_eq _ _ H0) as E0.
  pose proof (encode_word_bytes32_eq _ _ H1) as E1.
  pose proof (encode_word_bytes32_eq _ _ H3) as E3.
  apply encode_word_bytes32_inv in H0, H1, H3.
  apply encode_word_uint_inv in H2 as (R2 & _ & E2).
  apply encode_word_uint_inv in H4 as (R4 & _ & E4).
  apply encode_word_uint_inv in H5 as (R5 & _ & E5).
  apply encode_word_uint_big_inv in H6 as (R6 & E6).
  apply encode_word_address_inv in H7 as (spelling & number & _ & Hnum & R7 & E7).
  subst w0 w1 w2 w3 w4 w5 w6 w7.
  repeat split; try solve [assumption | lia].
  exists number. repeat split; try solve [assumption | lia].
  now symmetry.
Qed.

(** X9. The byte string generateBlobHash hashes determines its inputs: when
    the coder returns the same bytes for two lists of values under the
    types of the blob, the market ids, winners, snapshot hashes, times and
    nonces are the same, and the two addresses, however they are spelled,
    denote the same number. *)
Theorem blob_preimage_injective (typeHash : bytes)
    (marketId marketId' : bytes) (winner winner' : Z)
    (snapshotHash snapshotHash' : bytes)
    (resolvedAt resolvedAt' challengeUntil challengeUntil' nonce nonce' : Z)
    (oracleAddress oracleAddress' : string) (encoded : bytes) :
  AbiCoder_encode
    ["bytes32"; "bytes32"; "uint8"; "bytes32"; "uint64"; "uint64"; "uint256";
     "address"]%string
    [Hex typeHash; Hex marketId; Num winner; Hex snapshotHash; Num resolvedAt;
     Num challengeUntil; Big nonce; Str oracleAddress]
  = Ok encoded ->
  AbiCoder_encode
    ["bytes32"; "bytes32"; "uint8"; "bytes32"; "uint64"; "uint64"; "uint256";
     "address"]%string
    [Hex typeHash; Hex marketId'; Num winner'; Hex snapshotHash';
     Num resolvedAt'; Num challengeUntil'; Big nonce'; Str oracleAddress']
  = Ok encoded ->
  marketId = marketId' /\ winner = winner' /\ snapshotHash = snapshotHash'
  /\ resolvedAt = resolvedAt' /\ challengeUntil = challengeUntil'
  /\ nonce = nonce'
  /\ address_number oracleAddress = address_number oracleAddress'.
Proof.
  fold blob_types.
  intros H1 H2.
  apply AbiCoder_encode_blob_inv in H1 as
    (Htype & Hid & Hw & Hsnap & Hat & Hcu & Hn & number & Hnum & Hr & Henc).
  apply AbiCoder_encode_blob_inv in H2 as
    (_ & Hid' & Hw' & Hsnap' & Hat' & Hcu' & Hn' & number' & Hnum' & Hr' & Henc').
  pose proof (eq_trans (eq_sym Henc) Henc') as Heq. clear Henc Henc'.
  apply app_inv_head in Heq.
  apply app_inj_length in Heq as [Eid Heq]; [|congruence].
  apply app_inj_length in Heq as [Ew Heq]; [|now rewrite !be_bytes_length].
  apply app_inj_length in Heq as [Esnap Heq]; [|congruence].
  apply app_inj_length in Heq as [Eat Heq]; [|now rewrite !be_bytes_length].
  apply app_inj_length in Heq as [Ecu Heq]; [|now rewrite !be_bytes_length].
  apply app_inj_length in Heq as [En Eaddr]; [|now rewrite !be_bytes_length].
  assert (Hbig : 2 ^ 256 = 256 ^ Z.of_nat 32) by reflexivity.
  assert (H8 : 2 ^ 8 < 2 ^ 256) by reflexivity.
  assert (H64 : 2 ^ 64 < 2 ^ 256) by reflexivity.
  rewrite Hnum, Hnum'.
  repeat split; try assumption;
    try (f_equal); apply (be_bytes_inj 32); try assumption; lia.
Qed.


End Preimage.

(* ================================================================== *)
(** * Contract addresses *)
(* ================================================================== *)

Section Contracts.
Context {W : Type} (env : Env W).

Lemma fold_role_update (role : string) (data : list (string * string)) :
  forall init,
    fold_left (role_update role) data init = merged_address role data init.
Proof.
  unfold merged_address, last_address. fold (role_update role).
  induction data as [|entry data IH]; intros init; simpl.
  - reflexivity.
  - rewrite (IH (role_update role init entry)).
    rewrite (IH (role_update role None entry)).
    unfold role_update.
    destruct (fst entry =? role)%string;
      destruct (fold_left _ data None); reflexivity.
Qed.

Lemma fold_assign (data : list (string * string)) :
  forall m,
    fold_left PartialContracts.assign data m
    = PartialContracts.mk
        (fold_left (role_update "settlementOracle") data
                   (PartialContracts.settlementOracle m))
        (fold_left (role_update "marketFactory") data
                   (PartialContracts.marketFactory m))
        (fold_left (role_update "stakeToken") data
                   (PartialContracts.stakeToken m)).
Proof.
  induction data as [|[ty addr] data IH]; intros m; simpl.
  - now destruct m.
  - rewrite IH. unfold role_update. simpl.
    destruct (ty =? "settlementOracle")%string;
      destruct (ty =? "marketFactory")%string;
      destruct (ty =? "stakeToken")%string; reflexivity.
Qed.

Lemma merge_of_cached (data : list (string * string))
    (cached : option ContractAddresses.t) :
  PartialContracts.complete
    (fold_left PartialContracts.assign data (PartialContracts.of_cached cached))
  = merged_contracts data cached.
Proof.
  rewrite fold_assign, !fold_role_update.
  unfold merged_contracts.
  now destruct cached.
Qed.

(** With cached addresses the merge is always complete. *)
Lemma merged_contracts_cached (data : list (string * string))
    (c : ContractAddresses.t) :
  exists c', merged_contracts data (Some c) = Some c'.
Proof.
  unfold merged_contracts, merged_address, PartialContracts.complete. simpl.
  destruct (last_address "settlementOracle" data);
    destruct (last_address "marketFactory" data);
    destruct (last_address "stakeToken" data); eexists; reflexivity.
Qed.

Lemma getContracts_no_api (s : State W) :
  AppConfig.apiBaseUrl (config env) = EmptyString ->
  getContracts env s = (cached_or_throw (cachedContracts s), s).
Proof.
  intros Hapi.
  unfold getContracts, mbind, ret, get_cachedContracts, cached_or_throw, throw.
  rewrite Hapi. simpl.
  now destruct (cachedContracts s).
Qed.

Lemma getContracts_fetch_throws (s : State W) (t : thrown) (w' : W) :
  AppConfig.apiBaseUrl (config env) <> EmptyString ->
  fetch_contracts env (world s) = (Throw t, w') ->
  getContracts env s
  = (cached_or_throw (cachedContracts s),
     after_fetch s w' (cachedContracts s) [fetch_error_line t]).
Proof.
  intros Hapi Hfetch.
  apply String.eqb_neq in Hapi.
  unfold getContracts, mbind, ret, get_cachedContracts, cached_or_throw,
    throw, try_catch, outside, log, after_fetch, fetch_error_line.
  rewrite Hapi. change (negb false) with true. cbv beta iota.
  rewrite Hfetch. simpl.
  rewrite <- app_assoc. simpl.
  now destruct (cachedContracts s).
Qed.

Lemma getContracts_not_ok (s : State W)
    (response : Http.response (list (string * string))) (w' : W) :
  AppConfig.apiBaseUrl (config env) <> EmptyString ->
  fetch_contracts env (world s) = (Ok response, w') ->
  Http.ok response = false ->
  getContracts env s
  = (cached_or_throw (cachedContracts s),
     after_fetch s w' (cachedContracts s) []).
Proof.
  intros Hapi Hfetch Hok.
  apply String.eqb_neq in Hapi.
  unfold getContracts, mbind, ret, get_cachedContracts, cached_or_throw,
    throw, try_catch, outside, log, after_fetch.
  rewrite Hapi. change (negb false) with true. cbv beta iota.
  rewrite Hfetch. simpl. rewrite Hok. simpl.
  now destruct (cachedContracts s).
Qed.

Lemma getContracts_json_throws (s : State W)
    (response : Http.response (list (string * string))) (w' : W) (t : thrown) :
  AppConfig.apiBaseUrl (config env) <> EmptyString ->
  fetch_contracts env (world s) = (Ok response, w') ->
  Http.ok response = true ->
  Http.json response = Throw t ->
  getContracts env s
  = (cached_or_throw (cachedContracts s),
     after_fetch s w' (cachedContracts s) [fetch_error_line t]).
Proof.
  intros Hapi Hfetch Hok Hjson.
  apply String.eqb_neq in Hapi.
  unfold getContracts, mbind, ret, get_cachedContracts, cached_or_throw,
    throw, try_catch, outside, log, lift, after_fetch, fetch_error_line.
  rewrite Hapi. change (negb false) with true. cbv beta iota.
  rewrite Hfetch. simpl. rewrite Hok, Hjson. simpl.
  rewrite <- app_assoc. simpl.
  now destruct (cachedContracts s).
Qed.

Lemma getContracts_answer (s : State W)
    (response : Http.response (list (string * string))) (w' : W)
    (data : list (string * string)) :
  AppConfig.apiBaseUrl (config env) <> EmptyString ->
  fetch_contracts env (world s) = (Ok response, w') ->
  Http.ok response = true ->
  Http.json response = Ok data ->
  getContracts env s
  = (cached_or_throw (merged_contracts data (cachedContracts s)),
     after_fetch s w' (merged_contracts data (cachedContracts s)) []).
Proof.
  intros Hapi Hfetch Hok Hjson.
  apply String.eqb_neq in Hapi.
  pose proof (merge_of_cached data (cachedContracts s)) as Hmerge.
  unfold getContracts, mbind, ret, get_cachedContracts, set_cachedContracts,
    cached_or_throw, throw, try_catch, outside, log, lift, after_fetch.
  rewrite Hapi. change (negb false) with true. cbv beta iota.
  rewrite Hfetch. simpl. rewrite Hok, Hjson. simpl.
  rewrite Hmerge.
  destruct (merged_contracts data (cachedContracts s)) as [c|] eqn:Hm; simpl.
  - reflexivity.
  - destruct (cachedContracts s) as [c|] eqn:Hc; [|reflexivity].
    destruct (merged_contracts_cached data c) as [c' Hc'].
    congruence.
Qed.

End Contracts.

Section ContractsTheorems.
Context {W : Type} (env : Env W).

(** X11. When the contracts API gives no data (the fetch throws, the
    response is not ok, or its body cannot be read), getContracts falls back
    on the cached addresses: it returns them if there are any and throws
    'Contract addresses not configured' if there are none, and it leaves the
    cache as it was. *)
Theorem getContracts_falls_back (s : State W) :
  api_failed (fst (fetch_contracts env (world s))) ->
  fst (getContracts env s) = cached_or_throw (cachedContracts s)
  /\ cachedContracts (snd (getContracts env s)) = cachedContracts s.
Proof.
  intros Hfailed.
  destruct (String.eqb_spec (AppConfig.apiBaseUrl (config env)) EmptyString)
    as [Hapi | Hapi].
  - now rewrite (getContracts_no_api env s Hapi).
  - destruct (fetch_contracts env (world s)) as [[response | t] w'] eqn:Hfetch;
      simpl in Hfailed.
    + destruct Hfailed as [Hok | [t Hjson]].
      * now rewrite (getContracts_not_ok env s response w' Hapi Hfetch Hok).
      * destruct (Http.ok response) eqn:Hok.
        -- now rewrite (getContracts_json_throws env s response w' t
                          Hapi Hfetch Hok Hjson).
        -- now rewrite (getContracts_not_ok env s response w' Hapi Hfetch Hok).
    + now rewrite (getContracts_fetch_throws env s t w' Hapi Hfetch).
Qed.

(** X12. When the contracts API answers, getContracts merges the answer
    over the cache, role by role: the address of a role is that of the last
    entry of the answer with that type, or the cached one when the answer
    has no such entry; entries of other types are ignored.  If all three
    roles have an address the merge is returned and becomes the cache;
    otherwise there was no cache, it stays empty, and 'Contract addresses
    not configured' is thrown.  The addresses of the answer and of the
    cache are taken to be non-empty, so that an address that is there
    passes the truthiness test of the source. *)
Theorem getContracts_merges_answer (s : State W)
    (response : Http.response (list (string * string))) (w' : W)
    (data : list (string * string)) :
  AppConfig.apiBaseUrl (config env) <> EmptyString ->
  fetch_contracts env (world s) = (Ok response, w') ->
  Http.ok response = true ->
  Http.json response = Ok data ->
  truthy_addresses data (cachedContracts s) ->
  fst (getContracts env s)
  = cached_or_throw (merged_contracts data (cachedContracts s))
  /\ cachedContracts (snd (getContracts env s))
     = merged_contracts data (cachedContracts s)
  /\ (merged_contracts data (cachedContracts s) = None ->
      cachedContracts s = None).
Proof.
  intros Hapi Hfetch Hok Hjson _.
  rewrite (getContracts_answer env s response w' data Hapi Hfetch Hok Hjson).
  split; [reflexivity|]. split; [reflexivity|].
  intros Hnone.
  destruct (cachedContracts s) as [c|]; [|reflexivity].
  destruct (merged_contracts_cached data c) as [c' Hc'].
  congruence.
Qed.

(** X13. Once contract addresses are cached, getContracts never throws,
    whatever the API does; what it returns is what the cache holds
    afterwards. *)
Theorem getContracts_cached_never_throws (s : State W)
    (c : ContractAddresses.t) :
  cachedContracts s = Some c ->
  exists c',
    fst (getContracts env s) = Ok c'
    /\ cachedContracts (snd (getContracts env s)) = Some c'.
Proof.
  intros Hc.
  destruct (String.eqb_spec (AppConfig.apiBaseUrl (config env)) EmptyString)
    as [Hapi | Hapi].
  { rewrite (getContracts_no_api env s Hapi), Hc. now exists c. }
  destruct (fetch_contracts env (world s)) as [[response | t] w'] eqn:Hfetch.
  - destruct (Http.ok response) eqn:Hok.
    + destruct (Http.json response) as [data | t] eqn:Hjson.
      * rewrite (getContracts_answer env s response w' data
                   Hapi Hfetch Hok Hjson), Hc.
        destruct (merged_contracts_cached data c) as [c' Hc'].
        rewrite Hc'. now exists c'.
      * rewrite (getContracts_json_throws env s response w' t
                   Hapi Hfetch Hok Hjson), Hc.
        now exists c.
    + rewrite (getContracts_not_ok env s response w' Hapi Hfetch Hok), Hc.
      now exists c.
  - rewrite (getContracts_fetch_throws env s t w' Hapi Hfetch), Hc.
    now exists c.
Qed.

End ContractsTheorems.

(* ================================================================== *)
(** * The catch block *)
(* ================================================================== *)

Section CatchBlock.

Lemma prefix_spec (sub : string) :
  forall s, String.prefix sub s = true <-> exists post, s = (sub ++ post)%string.
Proof.
  induction sub as [|a sub IH]; intros s; simpl.
  - split; [intros _; now exists s | intros _; now destruct s].
  - destruct s as [|b s]; simpl.
    + split; [discriminate | intros (post & Hpost); discriminate].
    + destruct (Ascii.ascii_dec a b) as [<- | Hab].
      * rewrite IH. split.
        -- intros (post & ->). now exists post.
        -- intros (post & Hpost). inversion Hpost. now exists post.
      * split; [discriminate|].
        intros (post & Hpost). inversion Hpost. congruence.
Qed.

(** [includes] finds contiguous substrings, and nothing else. *)
Lemma includes_spec (sub : string) :
  forall s,
    includes s sub = true <-> exists pre post, s = (pre ++ sub ++ post)%string.
Proof.
  induction s as [|a s IH].
  - change (includes EmptyString sub)
      with (if String.prefix sub EmptyString then true else false).
    destruct (String.prefix sub EmptyString) eqn:Hp.
    + apply prefix_spec in Hp as (post & Hpost).
      split; [intros _; now exists EmptyString, post | reflexivity].
    + split; [discriminate|].
      intros (pre & post & Heq).
      destruct pre; [|discriminate]. simpl in Heq.
      assert (String.prefix sub EmptyString = true)
        by (apply prefix_spec; now exists post).
      congruence.
  - change (includes (String a s) sub)
      with (if String.prefix sub (String a s) then true else includes s sub).
    destruct (String.prefix sub (String a s)) eqn:Hp.
    + apply prefix_spec in Hp as (post & Hpost).
      split; [intros _; now exists EmptyString, post | reflexivity].
    + rewrite IH. split.
      * intros (pre & post & ->). now exists (String a pre), post.
      * intros (pre & post & Heq).
        destruct pre as [|b pre]; simpl in Heq.
        -- assert (String.prefix sub (String a s) = true)
             by (apply prefix_spec; now exists post).
           congruence.
        -- inversion Heq. now exists pre, post.
Qed.

(** X14. The catch block of the loop prints every error, then absorbs it
    exactly when it is an Error whose message has "time" somewhere inside
    (as a contiguous, case-sensitive substring); the market then counts as
    skipped.  Any other Error and any thrown value that is not an Error is
    thrown again, unchanged. *)
Theorem catch_absorbs_iff {W : Type} (market : MarketConfig.t) (c : Counters)
    (t : thrown) (s : State W) :
  snd (catchHandler market c t s) = after_console_error s market t
  /\ ((exists pre post, t = Error (pre ++ "time" ++ post)%string) ->
      fst (catchHandler market c t s)
      = Ok (mkCounters (processed c) (skipped c + 1)))
  /\ (~ (exists pre post, t = Error (pre ++ "time" ++ post)%string) ->
      fst (catchHandler market c t s) = Throw t).
Proof.
  unfold catchHandler, mbind, log, after_console_error.
  simpl.
  assert (Hspec : is_time_error t = true
                  <-> exists pre post, t = Error (pre ++ "time" ++ post)%string).
  { destruct t as [message | shown]; simpl.
    - rewrite includes_spec. split.
      + intros (pre & post & ->). now exists pre, post.
      + intros (pre & post & Heq). inversion Heq. now exists pre, post.
    - split; [discriminate | intros (pre & post & Heq); discriminate]. }
  destruct (is_time_error t) eqn:Hkind; simpl.
  - split; [reflexivity|]. split; [reflexivity|].
    intros Hno. exfalso. apply Hno, Hspec. reflexivity.
  - split; [reflexivity|]. split; [|reflexivity].
    intros Hyes. apply Hspec in Hyes. discriminate.
Qed.

End CatchBlock.

(* ================================================================== *)
(** * The run as a whole *)
(* ================================================================== *)

Section Pipeline.
Context {W : Type} (env : Env W).

(** After the two loads, the run goes on from [after_loads]. *)
Lemma processMarkets_after_loads (s : State W) (leaderboard : list Project.t)
    (markets : list MarketConfig.t) (w2 : W) :
  loads env s leaderboard markets w2 ->
  processMarkets env s
  = match markets with
    | [] => (Ok tt, after_loads s w2)
    | _ :: _ =>
        (_ <- getSigner env ;;
         block <- outside GetBlock (provider_getBlock env) ;;
         blockTimestamp <-
           match block with
           | Some timestamp => ret timestamp
           | None => outside ReadClock (fun w => (Ok (Date_now env w / 1000), w))
           end ;;
         c <- processLoop env leaderboard blockTimestamp markets (mkCounters 0 0) ;;
         log (Summary (processed c) (skipped c))) (after_loads s w2)
    end.
Proof.
  intros (r1 & w1 & r2 & Hf1 & Hok1 & Hj1 & Hf2 & Hok2 & Hj2).
  unfold processMarkets, loadLeaderboardSnapshot, loadMarkets, after_loads.
  unfold mbind at 1. unfold mbind at 1. unfold outside at 1.
  rewrite Hf1. cbv beta iota. rewrite Hok1. cbn [negb]. cbv beta iota.
  unfold lift at 1. rewrite Hj1.
  unfold mbind at 1. unfold mbind at 1. unfold outside at 1.
  cbn [world cachedContracts trace].
  rewrite Hf2. cbv beta iota. rewrite Hok2. cbn [negb]. cbv beta iota.
  unfold lift at 1. rewrite Hj2.
  rewrite <- app_assoc. cbn [app].
  destruct markets; reflexivity.
Qed.

(** X15. A run that cannot load the leaderboard stops there: the error is
    thrown before the markets are asked for and before any call to the
    chain, and the pipeline exits with status 1.  When the API answered
    with a response that is not ok, the error is 'Failed to load
    leaderboard:' with the status text. *)
Theorem processMarkets_leaderboard_failure (s : State W) :
  api_failed (fst (fetch_leaderboard env (world s))) ->
  exists t,
    processMarkets env s
    = (Throw t,
       mkState (snd (fetch_leaderboard env (world s))) (cachedContracts s)
               (trace s ++ [Fetch "/api/leaderboard/today"]))
    /\ fst (main env s) = Exited 1
    /\ (forall response,
          fst (fetch_leaderboard env (world s)) = Ok response ->
          Http.ok response = false ->
          t = Error ("Failed to load leaderboard: " ++ Http.statusText response)).
Proof.
  intros Hfailed.
  assert (Hrun :
    exists t,
      processMarkets env s
      = (Throw t,
         mkState (snd (fetch_leaderboard env (world s))) (cachedContracts s)
                 (trace s ++ [Fetch "/api/leaderboard/today"]))
      /\ (forall response,
            fst (fetch_leaderboard env (world s)) = Ok response ->
            Http.ok response = false ->
            t = Error ("Failed to load leaderboard: "
                       ++ Http.statusText response))).
  { unfold processMarkets, loadLeaderboardSnapshot.
    unfold mbind at 1. unfold mbind at 1. unfold outside at 1.
    destruct (fetch_leaderboard env (world s)) as [[response | t] w1];
      simpl in Hfailed |- *.
    - destruct (Http.ok response) eqn:Hok; simpl.
      + destruct Hfailed as [Hno | [t Hjson]]; [discriminate|].
        unfold lift. rewrite Hjson.
        exists t. split; [reflexivity|].
        intros r Hr Hno. inversion Hr. subst. congruence.
      + eexists. split; [reflexivity|].
        intros r Hr _. inversion Hr. now subst.
    - exists t. split; [reflexivity|].
      intros r Hr. discriminate. }
  destruct Hrun as (t & Hrun & Hmessage).
  exists t. split; [exact Hrun|]. split; [|exact Hmessage].
  unfold main. now rewrite Hrun.
Qed.

(** X16. A run that finds no markets ends normally after the two loads: it
    needs no private key, resolves no contract address, does not ask the
    chain for a block and prints no summary. *)
Theorem processMarkets_no_markets (s : State W)
    (leaderboard : list Project.t) (w2 : W) :
  loads env s leaderboard [] w2 ->
  processMarkets env s = (Ok tt, after_loads s w2)
  /\ main env s = (Completed, after_loads s w2).
Proof.
  intros Hloads.
  pose proof (processMarkets_after_loads s leaderboard [] w2 Hloads) as Hrun.
  unfold main. rewrite Hrun. auto.
Qed.

(** X17. A run with markets but without PRIVATE_KEY fails after the two
    loads with 'PRIVATE_KEY not set in environment variables': nothing is
    asked of the chain, no market is looked at, and the pipeline prints the
    error and exits with status 1. *)
Theorem processMarkets_missing_key (s : State W)
    (leaderboard : list Project.t) (market : MarketConfig.t)
    (rest : list MarketConfig.t) (w2 : W) :
  AppConfig.privateKey (config env) = EmptyString ->
  loads env s leaderboard (market :: rest) w2 ->
  processMarkets env s
  = (Throw (Error "PRIVATE_KEY not set in environment variables"),
     after_loads s w2)
  /\ main env s
     = (Exited 1,
        mkState w2 (cachedContracts s)
          (trace s
           ++ [Fetch "/api/leaderboard/today"; Fetch "/api/markets";
               ConsoleError "❌ Oracle pipeline failed:"
                 (Error "PRIVATE_KEY not set in environment variables")])).
Proof.
  intros Hkey Hloads.
  pose proof (processMarkets_after_loads s leaderboard (market :: rest) w2
                Hloads) as Hrun.
  unfold mbind at 1, getSigner in Hrun.
  rewrite Hkey in Hrun. simpl in Hrun.
  unfold main. rewrite Hrun.
  split; [reflexivity|].
  unfold after_loads. simpl. now rewrite <- app_assoc.
Qed.

End Pipeline.

(* ================================================================== *)
(** * Counting markets *)
(* ================================================================== *)

Section Counting.
Context {W : Type} (env : Env W).
Variable leaderboardSnapshot : list Project.t.
Variable blockTimestamp : Z.

Lemma resolveReady_ok_counts (market : MarketConfig.t) (c c' : Counters)
    (s s' : State W) :
  resolveReady env leaderboardSnapshot blockTimestamp market c s = (Ok c', s') ->
  c' = mkCounters (processed c + 1) (skipped c).
Proof.
  unfold resolveReady.
  unfold mbind at 1.
  match goal with
  | |- match ?e with pair _ _ => _ end = _ -> _ =>
      destruct e as [[m|] s1]; [|discriminate]
  end.
  unfold mbind at 1.
  destruct (createResolution env m leaderboardSnapshot blockTimestamp s1)
    as [[[resolution signature]|] s2]; [|discriminate].
  unfold mbind at 1, lift.
  destruct (toISOString _); [|discriminate].
  unfold mbind at 1.
  destruct (postResolution env resolution signature s2) as [[[]|] s3];
    [|discriminate].
  unfold ret. intros Hrun. now inversion Hrun.
Qed.

(** A market that is not ready is skipped without a call to the outside. *)
Lemma processMarket_not_ready (market : MarketConfig.t) (c : Counters)
    (s : State W) :
  blockTimestamp < MarketConfig.resolveTime market ->
  exists s',
    processMarket env leaderboardSnapshot blockTimestamp market c s
    = (Ok (mkCounters (processed c) (skipped c + 1)), s')
    /\ world s' = world s
    /\ cachedContracts s' = cachedContracts s
    /\ exists evs, trace s' = trace s ++ evs
                   /\ Forall (fun e => leaves_process e = false) evs.
Proof.
  intros Hgate.
  apply Z.ltb_lt in Hgate.
  assert (Hbody :
    tryBody env leaderboardSnapshot blockTimestamp market c s
    = (Ok (mkCounters (processed c) (skipped c + 1)), s)
    \/ tryBody env leaderboardSnapshot blockTimestamp market c s
       = (Throw (Error "Invalid time value"), s)).
  { unfold tryBody, mbind, lift.
    destruct (toISOString_cases (MarketConfig.resolveTime market * 1000))
      as [Hd | Hd]; rewrite Hd; [|now right].
    rewrite Hgate. unfold mbind, lift.
    destruct (toISOString_cases (blockTimestamp * 1000))
      as [Hb | Hb]; rewrite Hb; [|now right].
    now left. }
  destruct Hbody as [Hbody | Hbody].
  - exists s.
    rewrite (processMarket_ok env _ _ _ _ _ _ _ Hbody).
    repeat split. exists []. now rewrite app_nil_r.
  - exists (after_console_error s market (Error "Invalid time value")).
    rewrite (processMarket_throw env _ _ _ _ _ _ _ Hbody).
    simpl is_time_error. cbv iota.
    repeat split. eexists. split; [reflexivity|]. now constructor.
Qed.

(** An iteration that ends normally raised exactly one of the two
    counters, by one. *)
Lemma processMarket_ok_counts (market : MarketConfig.t) (c c' : Counters)
    (s s' : State W) :
  processMarket env leaderboardSnapshot blockTimestamp market c s = (Ok c', s') ->
  c' = mkCounters (processed c + 1) (skipped c)
  \/ c' = mkCounters (processed c) (skipped c + 1).
Proof.
  destruct (tryBody env leaderboardSnapshot blockTimestamp market c s)
    as [[c1|t] s1] eqn:Hbody.
  - rewrite (processMarket_ok env _ _ _ _ _ _ _ Hbody).
    intros Hrun. inversion Hrun. subst c1 s1. clear Hrun.
    unfold tryBody in Hbody.
    unfold mbind at 1, lift in Hbody.
    destruct (toISOString _); [|discriminate].
    destruct (blockTimestamp <? MarketConfig.resolveTime market).
    + unfold mbind, lift, ret in Hbody.
      destruct (toISOString _); [|discriminate].
      inversion Hbody. now right.
    + left. now apply resolveReady_ok_counts in Hbody.
  - rewrite (processMarket_throw env _ _ _ _ _ _ _ Hbody).
    destruct (is_time_error t); [|discriminate].
    intros Hrun. inversion Hrun. now right.
Qed.

(** A loop that ends normally counted every market once. *)
Lemma processLoop_counts (markets : list MarketConfig.t) :
  forall (c c' : Counters) (s s' : State W),
    processLoop env leaderboardSnapshot blockTimestamp markets c s = (Ok c', s') ->
    processed c <= processed c'
    /\ skipped c <= skipped c'
    /\ (processed c' - processed c) + (skipped c' - skipped c)
       = Z.of_nat (List.length markets).
Proof.
  induction markets as [|market rest IH]; intros c c' s s' Hrun.
  - inversion Hrun. simpl. lia.
  - rewrite processLoop_cons in Hrun.
    destruct (processMarket env leaderboardSnapshot blockTimestamp market c s)
      as [[c1|] s1] eqn:Hstep; [|discriminate].
    apply processMarket_ok_counts in Hstep.
    apply IH in Hrun.
    cbn [List.length]. rewrite Nat2Z.inj_succ.
    destruct Hstep as [-> | ->]; simpl in Hrun; lia.
Qed.

(** X18. When no market of the batch is ready, the loop skips them all: it
    ends normally with the skipped counter raised by the number of markets,
    the processed counter and the cached addresses untouched, the
    collaborators in the state they were in, and nothing in the trace but
    what was printed. *)
Theorem processLoop_all_not_ready (markets : list MarketConfig.t) :
  forall (c : Counters) (s : State W),
    (forall market, In market markets ->
                    blockTimestamp < MarketConfig.resolveTime market) ->
    exists s',
      processLoop env leaderboardSnapshot blockTimestamp markets c s
      = (Ok (mkCounters (processed c)
                        (skipped c + Z.of_nat (List.length markets))), s')
      /\ world s' = world s
      /\ cachedContracts s' = cachedContracts s
      /\ exists evs, trace s' = trace s ++ evs
                     /\ Forall (fun e => leaves_process e = false) evs.
Proof.
  induction markets as [|market rest IH]; intros c s Hall.
  - exists s. simpl. unfold ret.
    replace (skipped c + 0) with (skipped c) by lia.
    destruct c. repeat split. exists []. now rewrite app_nil_r.
  - destruct (processMarket_not_ready market c s) as
      (s1 & Hstep & Hworld1 & Hcache1 & evs1 & Htrace1 & Hall1).
    { apply Hall. now left. }
    destruct (IH (mkCounters (processed c) (skipped c + 1)) s1) as
      (s' & Hrun & Hworld & Hcache & evs & Htrace & Hall2).
    { intros m Hm. apply Hall. now right. }
    exists s'.
    rewrite processLoop_cons, Hstep, Hrun.
    cbn [processed skipped List.length]. rewrite Nat2Z.inj_succ.
    replace (skipped c + 1 + Z.of_nat (List.length rest))
      with (skipped c + Z.succ (Z.of_nat (List.length rest))) by lia.
    split; [reflexivity|].
    split; [congruence|]. split; [congruence|].
    exists (evs1 ++ evs). rewrite Htrace, Htrace1, app_assoc.
    split; [reflexivity | now apply Forall_app].
Qed.

End Counting.

(** X19. When a run over a non-empty list of markets ends normally, it
    ends with its summary (the last event of the run), and the summary
    counts every market exactly once: the processed and the skipped markets
    add up to the number of markets loaded. *)
Theorem summary_counts_every_market {W : Type} (env : Env W) (s s' : State W)
    (leaderboard : list Project.t) (markets : list MarketConfig.t) (w2 : W) :
  loads env s leaderboard markets w2 ->
  markets <> [] ->
  processMarkets env s = (Ok tt, s') ->
  exists p k evs,
    trace s' = evs ++ [Summary p k]
    /\ 0 <= p /\ 0 <= k
    /\ p + k = Z.of_nat (List.length markets).
Proof.
  intros Hloads Hnonempty.
  rewrite (processMarkets_after_loads env s leaderboard markets w2 Hloads).
  destruct markets as [|market rest]; [contradiction|].
  set (ms := market :: rest).
  unfold mbind at 1.
  destruct (getSigner env (after_loads s w2)) as [[[]|] s1]; [|discriminate].
  unfold mbind at 1.
  destruct (outside GetBlock (provider_getBlock env) s1) as [[block|] s2];
    [|discriminate].
  unfold mbind at 1.
  match goal with
  | |- match ?e with pair _ _ => _ end = _ -> _ =>
      destruct e as [[blockTimestamp|] s3]; [|discriminate]
  end.
  unfold mbind at 1.
  destruct (processLoop env leaderboard blockTimestamp ms (mkCounters 0 0) s3)
    as [[c|] s4] eqn:Hloop; [|discriminate].
  unfold log. intros Hrun. inversion Hrun. subst s'. simpl.
  apply processLoop_counts in Hloop. simpl in Hloop.
  exists (processed c), (skipped c), (trace s4).
  split; [reflexivity|]. lia.
Qed.

(* ================================================================== *)
(** * Signing and posting *)
(* ================================================================== *)

Ltac run_step :=
  match goal with
  | |- match ?e with pair _ _ => _ end = _ -> _ =>
      let r := fresh "r" in
      let s := fresh "s" in
      destruct e as [[r|] s] eqn:?; [|discriminate]
  end.

Ltac trace_auto := cbv zeta; auto 30 with trace.

#[export] Hint Extern 6 (emits_only _ (match ?x with pair _ _ => _ end)) =>
  destruct x : trace.

Section Signing.
Context {W : Type} (env : Env W).
Variable leaderboardSnapshot : list Project.t.
Variable blockTimestamp : Z.

Lemma getSigner_ok (s s' : State W) (u : unit) :
  getSigner env s = (Ok u, s') -> s' = s.
Proof.
  unfold getSigner, throw, lift.
  destruct (_ =? _)%string; intros Hrun; now inversion Hrun.
Qed.

Lemma getContracts_ok_cached (s s' : State W) (c : ContractAddresses.t) :
  getContracts env s = (Ok c, s') -> cachedContracts s' = Some c.
Proof.
  unfold getContracts. unfold mbind at 1. run_step.
  unfold mbind, get_cachedContracts, ret, throw.
  destruct (cachedContracts s0) as [c0|] eqn:Hc; intros Hrun;
    inversion Hrun; now subst.
Qed.




(** What a successful createResolution did, step by step. *)
Lemma createResolution_ok_inv (market : MarketConfig.t)
    (resolution : Resolution.t) (signature : bytes) (s s' : State W) :
  createResolution env market leaderboardSnapshot blockTimestamp s
  = (Ok (resolution, signature), s') ->
  exists id d contracts blob s2,
    MarketConfig.marketId market = Some id
    /\ determineWinner market leaderboardSnapshot = Ok d
    /\ resolution = Resolution.mk id (Determined.winner d)
                      (Determined.snapshotHash d)
                      blockTimestamp 0 blockTimestamp
    /\ getContracts env s = (Ok contracts, s2)
    /\ generateBlobHash id (Determined.winner d) (Determined.snapshotHash d)
         blockTimestamp 0 blockTimestamp
         (ContractAddresses.settlementOracle contracts) = Ok blob
    /\ fst (signer_signMessage env blob (world s2)) = Ok signature
    /\ cachedContracts s' = cachedContracts s2
    /\ trace s' = trace s2 ++ [SignMessage blob].
Proof.
  unfold createResolution.
  destruct (MarketConfig.marketId market) as [id|]; [|discriminate].
  unfold mbind at 1, lift at 1.
  destruct (determineWinner market leaderboardSnapshot) as [d|]; [|discriminate].
  unfold mbind at 1. run_step.
  match goal with H : getSigner env s = _ |- _ =>
    apply getSigner_ok in H; subst end.
  unfold mbind at 1. run_step.
  unfold mbind at 1, lift at 1. cbn [Resolution.marketId Resolution.winner
    Resolution.snapshotHash Resolution.resolvedAt Resolution.challengeUntil
    Resolution.nonce].
  destruct (generateBlobHash _ _ _ _ _ _ _) as [blob|] eqn:Hblob; [|discriminate].
  unfold mbind, outside, ret.
  destruct (signer_signMessage env blob (world s0)) as [[sig|] w'] eqn:Hsign;
    [|discriminate].
  intros Hrun. inversion Hrun. subst.
  exists id, d, r0, blob, s0.
  rewrite Hsign. simpl. auto 10.
Qed.

(** X20. What createResolution signs is the blob hash of the resolution
    it returns: when it succeeds, exactly one message was handed to the
    signer, last of all, namely generateBlobHash of the six fields of the
    returned resolution and of the settlementOracle address that
    getContracts cached; the returned signature is the signer's answer,
    the winner is 1 or 2, and the snapshot hash is that of the
    leaderboard. *)
Theorem createResolution_signs_its_resolution (market : MarketConfig.t)
    (resolution : Resolution.t) (signature : bytes) (s s' : State W) :
  createResolution env market leaderboardSnapshot blockTimestamp s
  = (Ok (resolution, signature), s') ->
  exists contracts blob evs w,
    cachedContracts s' = Some contracts
    /\ generateBlobHash (Resolution.marketId resolution)
         (Resolution.winner resolution) (Resolution.snapshotHash resolution)
         (Resolution.resolvedAt resolution)
         (Resolution.challengeUntil resolution) (Resolution.nonce resolution)
         (ContractAddresses.settlementOracle contracts) = Ok blob
    /\ trace s' = trace s ++ evs ++ [SignMessage blob]
    /\ Forall (fun e => signs_or_submits e = false) evs
    /\ fst (signer_signMessage env blob w) = Ok signature
    /\ (Resolution.winner resolution = 1 \/ Resolution.winner resolution = 2)
    /\ Resolution.snapshotHash resolution
       = hashJson (JSON_stringify leaderboardSnapshot).
Proof.
  intros Hrun.
  apply createResolution_ok_inv in Hrun as
    (id & d & contracts & blob & s2 & Hid & Hd & -> & Hcontracts & Hblob
     & Hsign & Hcache & Htrace).
  destruct (getContracts_quiet env s) as (evs & Hevs & Hquiet).
  rewrite Hcontracts in Hevs. simpl in Hevs.
  exists contracts, blob, evs, (world s2). simpl.
  split; [rewrite Hcache; now apply getContracts_ok_cached with s|].
  split; [exact Hblob|].
  split; [now rewrite Htrace, Hevs, app_assoc|].
  split.
  { eapply Forall_impl; [|exact Hquiet].
    intros e He. unfold quiet in He. now apply Bool.negb_true_iff in He. }
  split; [exact Hsign|].
  split.
  - clear Hblob. unfold determineWinner in Hd.
    destruct (_ =? _)%string.
    + destruct (find _ _); [|discriminate].
      inversion Hd. simpl. destruct (_ <=? _); auto.
    + destruct (_ =? _)%string; [|discriminate].
      destruct (find _ _); [|discriminate].
      destruct (find _ _); [|discriminate].
      inversion Hd. simpl. destruct (_ <? _); auto.
  - now apply determineWinner_snapshotHash in Hd.
Qed.

(** X21. createResolution signs nothing for a block timestamp that is not
    a uint64 or for a market id that is not 32 bytes long: the coder
    rejects the values, the error is thrown, and no sign or submit event
    is recorded. *)
Theorem createResolution_out_of_bounds (market : MarketConfig.t)
    (s : State W) :
  blockTimestamp < 0 \/ 2 ^ 64 <= blockTimestamp
  \/ (exists id, MarketConfig.marketId market = Some id
                 /\ List.length id <> 32%nat) ->
  exists t evs,
    fst (createResolution env market leaderboardSnapshot blockTimestamp s)
    = Throw t
    /\ trace (snd (createResolution env market leaderboardSnapshot
                                    blockTimestamp s))
       = trace s ++ evs
    /\ Forall (fun e => signs_or_submits e = false) evs.
Proof.
  intros Hbad.
  assert (Hblob : forall id w h oracle,
             MarketConfig.marketId market = Some id ->
             exists t, generateBlobHash id w h blockTimestamp 0 blockTimestamp
                                        oracle = Throw t).
  { intros id w h oracle Hid.
    destruct (generateBlobHash id w h blockTimestamp 0 blockTimestamp oracle)
      as [blob|t] eqn:Hgen; [|now exists t].
    apply generateBlobHash_ok_inv in Hgen as (Hlen & _ & _ & Hat & _).
    destruct Hbad as [Hneg | [Hbig | (id' & Hid' & Hlen')]]; try lia.
    congruence. }
  assert (Hquiet : emits_only quiet
            (createResolution env market leaderboardSnapshot blockTimestamp)).
  { unfold createResolution.
    destruct (MarketConfig.marketId market) as [id|] eqn:Hid;
      [|auto with trace].
    apply emits_only_bind; [auto with trace|]. intros d.
    apply emits_only_bind; [apply getSigner_quiet|]. intros _.
    apply emits_only_bind; [apply getContracts_quiet|]. intros contracts.
    apply emits_only_bind_throws; [auto with trace|].
    intros s0. unfold lift. simpl.
    now apply Hblob. }
  assert (Hthrows : exists t,
             fst (createResolution env market leaderboardSnapshot
                                   blockTimestamp s) = Throw t).
  { destruct (createResolution env market leaderboardSnapshot blockTimestamp s)
      as [[[resolution signature]|t] s'] eqn:Hrun; [|now exists t].
    apply createResolution_ok_inv in Hrun as
      (id & d & contracts & blob & s2 & Hid & _ & _ & _ & Hgen & _).
    destruct (Hblob id (Determined.winner d) (Determined.snapshotHash d)
                (ContractAddresses.settlementOracle contracts) Hid) as [t Ht].
    congruence. }
  destruct Hthrows as [t Ht].
  destruct (Hquiet s) as (evs & Htrace & Hall).
  exists t, evs. split; [exact Ht|]. split; [exact Htrace|].
  eapply Forall_impl; [|exact Hall].
  intros e He. unfold quiet in He. now apply Bool.negb_true_iff in He.
Qed.

End Signing.

Section Posting.
Context {W : Type} (env : Env W).
Variable leaderboardSnapshot : list Project.t.
Variable blockTimestamp : Z.



(** X22. A market that comes with its market id keeps it: while such a
    market is processed, the factory contract is never asked to compute an
    id. *)
Theorem processMarket_keeps_market_id (market : MarketConfig.t) (id : bytes)
    (c : Counters) (s : State W) :
  MarketConfig.marketId market = Some id ->
  exists evs,
    trace (snd (processMarket env leaderboardSnapshot blockTimestamp market c s))
    = trace s ++ evs
    /\ Forall (fun e => is_compute_call e = false) evs.
Proof.
  intros Hid.
  assert (Hloop : emits_only (fun e => negb (is_compute_call e))
            (processMarket env leaderboardSnapshot blockTimestamp market c)).
  { unfold processMarket, tryBody, resolveReady, catchHandler.
    rewrite Hid.
    unfold createResolution, postResolution, getSigner, getContracts.
    trace_auto. }
  destruct (Hloop s) as (evs & Htrace & Hall).
  exists evs. split; [exact Htrace|].
  eapply Forall_impl; [|exact Hall].
  intros e He. now apply Bool.negb_true_iff in He.
Qed.


End Posting.

(* ================================================================== *)
(** * The added properties, on sample data *)
(* ================================================================== *)

Lemma sample_random_in_unit_interval : in_unit_interval sample_random.
Proof.
  intros k. unfold sample_random, Qle, Qlt. cbn [Qnum Qden].
  pose proof (Nat.mod_upper_bound (k * 7) 10 ltac:(discriminate)).
  lia.
Qed.

(** The rounds of the shuffle of five elements with the sample values:
    swap 4 and 0, 3 and 2, 2 and 1, 1 and 0. *)
Example shuffleArray_run :
  shuffleArray sample_random [1; 2; 3; 4; 5] = [4; 5; 2; 3; 1].
Proof. vm_compute. reflexivity. Qed.

Example shuffleArray_empty :
  shuffleArray sample_random (@nil Z) = []
  /\ shuffleArray sample_random [7] = [7].
Proof. split; reflexivity. Qed.

Lemma shuffleArray_Permutation_witness :
  Permutation (shuffleArray sample_random [1; 2; 3; 4; 5]) [1; 2; 3; 4; 5]
  /\ List.length (shuffleArray sample_random [1; 2; 3; 4; 5])
     = List.length [1; 2; 3; 4; 5].
Proof.
  apply shuffleArray_Permutation.
  exact sample_random_in_unit_interval.
Defined.

Lemma randomizeLeaderboard_ranks_witness :
  List.length (randomizeLeaderboard sample_random sample_leaderboard)
  = List.length sample_leaderboard
  /\ map Project.rank (randomizeLeaderboard sample_random sample_leaderboard)
     = ranks_upto (List.length sample_leaderboard)
  /\ NoDup (map Project.rank
              (randomizeLeaderboard sample_random sample_leaderboard)).
Proof.
  apply randomizeLeaderboard_ranks.
  exact sample_random_in_unit_interval.
Defined.

Lemma randomizeLeaderboard_keeps_entries_witness :
  Permutation
    (map unranked (randomizeLeaderboard sample_random sample_leaderboard))
    (map unranked sample_leaderboard).
Proof.
  apply randomizeLeaderboard_keeps_entries.
  exact sample_random_in_unit_interval.
Defined.

Lemma randomizeLeaderboard_ignores_ranks_witness :
  randomizeLeaderboard sample_random sample_leaderboard
  = randomizeLeaderboard sample_random
      (map (fun p => Project.mk (Project.name p) 0 (Project.score p)
                                (Project.logo p))
           sample_leaderboard).
Proof.
  apply randomizeLeaderboard_ignores_ranks.
  - exact sample_random_in_unit_interval.
  - reflexivity.
Defined.

Lemma top10_on_randomized_leaderboard_witness :
  let market := top10_market "Curve" now None in
  let randomized := randomizeLeaderboard sample_random sample_leaderboard in
  Determined.winner (or_default (determineWinner market randomized)) = 1
  <-> exists q,
        In q (firstn 10 randomized)
        /\ MarketConfig.projectName market = Some (Project.name q).
Proof.
  intros market randomized.
  apply (top10_on_randomized_leaderboard sample_random sample_leaderboard
           market).
  - exact sample_random_in_unit_interval.
  - reflexivity.
  - vm_compute. reflexivity.
Defined.

Lemma h2h_exchanged_witness :
  let market := h2h_market "Jupiter" "Aave" now None in
  exists d',
    determineWinner (exchanged market) sample_leaderboard = Ok d'
    /\ Determined.snapshotHash d'
       = Determined.snapshotHash
           (or_default (determineWinner market sample_leaderboard))
    /\ (Determined.winner
          (or_default (determineWinner market sample_leaderboard)) = 1 ->
        Determined.winner d' = 2)
    /\ (Determined.winner d' = 1 ->
        Determined.winner
          (or_default (determineWinner market sample_leaderboard)) = 2).
Proof.
  intros market.
  apply (h2h_exchanged market sample_leaderboard).
  - reflexivity.
  - vm_compute. reflexivity.
Defined.

Lemma h2h_on_randomized_leaderboard_witness :
  let market := h2h_market "Jupiter" "Aave" now None in
  let randomized := randomizeLeaderboard sample_random sample_leaderboard in
  exists d',
    determineWinner (exchanged market) randomized = Ok d'
    /\ Determined.winner (or_default (determineWinner market randomized))
       + Determined.winner d' = 3.
Proof.
  intros market randomized.
  apply (h2h_on_randomized_leaderboard sample_random sample_leaderboard market).
  - exact sample_random_in_unit_interval.
  - reflexivity.
  - discriminate.
  - vm_compute. reflexivity.
Defined.

Lemma blob_preimage_injective_witness :
  let typeHash := keccak256 (toUtf8Bytes Resolve_schema) in
  an_id = an_id /\ 1 = 1
  /\ hashJson (JSON_stringify sample_leaderboard)
     = hashJson (JSON_stringify sample_leaderboard)
  /\ now = now /\ 0 = 0 /\ now = now
  /\ address_number "0x5aaeb6053f3e94c9b9a09f33669435e7ef1beaed"
     = address_number "0x5aAeb6053F3E94C9b9A09f33669435E7Ef1BeAed".
Proof.
  intros typeHash.
  apply (blob_preimage_injective typeHash
           an_id an_id 1 1
           (hashJson (JSON_stringify sample_leaderboard))
           (hashJson (JSON_stringify sample_leaderboard))
           now now 0 0 now now
           "0x5aaeb6053f3e94c9b9a09f33669435e7ef1beaed"
           "0x5aAeb6053F3E94C9b9A09f33669435E7Ef1BeAed"
           (typeHash ++ an_id ++ be_bytes 32 1
            ++ hashJson (JSON_stringify sample_leaderboard)
            ++ be_bytes 32 now ++ be_bytes 32 0 ++ be_bytes 32 now
            ++ left_pad32
                 (address_bytes "0x5aaeb6053f3e94c9b9a09f33669435e7ef1beaed")));
    vm_compute; reflexivity.
Defined.


Lemma getContracts_falls_back_witness :
  let env := test_env "0xkey" contracts_down leaderboard_ok [] in
  fst (getContracts env sample_state) = Ok sample_addresses
  /\ cachedContracts (snd (getContracts env sample_state))
     = Some sample_addresses.
Proof.
  intros env.
  apply (getContracts_falls_back env sample_state).
  exact I.
Defined.

Lemma getContracts_merges_answer_witness :
  let response := Http.mk true "OK" (Ok contracts_moved) in
  let env := test_env "0xkey" (Ok response) leaderboard_ok [] in
  let merged :=
    ContractAddresses.mk "0xf6f6f6f6f6f6f6f6f6f6f6f6f6f6f6f6f6f6f6f6"
                         (ContractAddresses.marketFactory sample_addresses)
                         (ContractAddresses.stakeToken sample_addresses) in
  fst (getContracts env sample_state) = Ok merged
  /\ cachedContracts (snd (getContracts env sample_state)) = Some merged
  /\ (Some merged = None -> Some sample_addresses = None).
Proof.
  intros response env merged.
  apply (getContracts_merges_answer env sample_state response O contracts_moved).
  - discriminate.
  - reflexivity.
  - reflexivity.
  - reflexivity.
  - split; [repeat constructor; discriminate | repeat split; discriminate].
Defined.

Lemma getContracts_cached_never_throws_witness :
  let env := test_env "0xkey" contracts_down leaderboard_ok [] in
  exists c',
    fst (getContracts env sample_state) = Ok c'
    /\ cachedContracts (snd (getContracts env sample_state)) = Some c'.
Proof.
  intros env.
  apply (getContracts_cached_never_throws env sample_state sample_addresses).
  reflexivity.
Defined.

Lemma processMarkets_leaderboard_failure_witness :
  let market := top10_market "Curve" (now - 100) (Some an_id) in
  let env := test_env "0xkey" contracts_down leaderboard_unavailable [market] in
  exists t,
    processMarkets env sample_state
    = (Throw t,
       mkState (snd (fetch_leaderboard env (world sample_state)))
               (cachedContracts sample_state)
               (trace sample_state ++ [Fetch "/api/leaderboard/today"]))
    /\ fst (main env sample_state) = Exited 1
    /\ (forall response,
          fst (fetch_leaderboard env (world sample_state)) = Ok response ->
          Http.ok response = false ->
          t = Error ("Failed to load leaderboard: " ++ Http.statusText response)).
Proof.
  intros market env.
  apply (processMarkets_leaderboard_failure env sample_state).
  left. reflexivity.
Defined.

Lemma sample_loads (key : string) (markets : list MarketConfig.t) :
  loads (test_env key contracts_down leaderboard_ok markets) sample_state
        sample_leaderboard markets O.
Proof.
  eexists. eexists. eexists.
  repeat split.
Qed.

Lemma processMarkets_no_markets_witness :
  let env := test_env EmptyString contracts_down leaderboard_ok [] in
  processMarkets env sample_state = (Ok tt, after_loads sample_state O)
  /\ main env sample_state = (Completed, after_loads sample_state O).
Proof.
  intros env.
  apply (processMarkets_no_markets env sample_state sample_leaderboard O).
  apply sample_loads.
Defined.

Lemma processMarkets_missing_key_witness :
  let market := top10_market "Curve" (now - 100) (Some an_id) in
  let env := test_env EmptyString contracts_down leaderboard_ok [market] in
  processMarkets env sample_state
  = (Throw (Error "PRIVATE_KEY not set in environment variables"),
     after_loads sample_state O)
  /\ main env sample_state
     = (Exited 1,
        mkState O (cachedContracts sample_state)
          (trace sample_state
           ++ [Fetch "/api/leaderboard/today"; Fetch "/api/markets";
               ConsoleError "❌ Oracle pipeline failed:"
                 (Error "PRIVATE_KEY not set in environment variables")])).
Proof.
  intros market env.
  apply (processMarkets_missing_key env sample_state sample_leaderboard
           market [] O).
  - reflexivity.
  - apply sample_loads.
Defined.

Lemma processLoop_all_not_ready_witness :
  let late1 := top10_market "Curve" (now + 100) None in
  let late2 := h2h_market "Jupiter" "Aave" (now + 1) None in
  let env := test_env "0xkey" contracts_down leaderboard_ok [late1; late2] in
  exists s',
    processLoop env sample_leaderboard now [late1; late2] (mkCounters 0 0)
                sample_state
    = (Ok (mkCounters 0 (0 + Z.of_nat (List.length [late1; late2]))), s')
    /\ world s' = world sample_state
    /\ cachedContracts s' = cachedContracts sample_state
    /\ exists evs, trace s' = trace sample_state ++ evs
                   /\ Forall (fun e => leaves_process e = false) evs.
Proof.
  intros late1 late2 env.
  apply (processLoop_all_not_ready env sample_leaderboard now [late1; late2]
           (mkCounters 0 0) sample_state).
  intros market [<- | [<- | []]]; reflexivity.
Defined.

Lemma summary_counts_every_market_witness :
  let late := top10_market "Scroll" (now + 100) None in
  let ready := h2h_market "Jupiter" "Aave" (now - 100) None in
  let env := test_env "0xkey" contracts_down leaderboard_ok [late; ready] in
  exists p k evs,
    trace (snd (processMarkets env sample_state)) = evs ++ [Summary p k]
    /\ 0 <= p /\ 0 <= k
    /\ p + k = Z.of_nat (List.length [late; ready]).
Proof.
  intros late ready env.
  apply (summary_counts_every_market env sample_state
           (snd (processMarkets env sample_state))
           sample_leaderboard [late; ready] O).
  - apply sample_loads.
  - discriminate.
  - vm_compute. reflexivity.
Defined.

Lemma createResolution_signs_its_resolution_witness :
  let market := top10_market "Curve" (now - 100) (Some an_id) in
  let env := test_env "0xkey" contracts_down leaderboard_ok [market] in
  let run := createResolution env market sample_leaderboard now sample_state in
  let resolution :=
    Resolution.mk an_id 1 (hashJson (JSON_stringify sample_leaderboard))
                  now 0 now in
  exists contracts blob evs w,
    cachedContracts (snd run) = Some contracts
    /\ generateBlobHash (Resolution.marketId resolution)
         (Resolution.winner resolution) (Resolution.snapshotHash resolution)
         (Resolution.resolvedAt resolution)
         (Resolution.challengeUntil resolution) (Resolution.nonce resolution)
         (ContractAddresses.settlementOracle contracts) = Ok blob
    /\ trace (snd run) = trace sample_state ++ evs ++ [SignMessage blob]
    /\ Forall (fun e => signs_or_submits e = false) evs
    /\ fst (signer_signMessage env blob w) = Ok (repeat x5a 65)
    /\ (Resolution.winner resolution = 1 \/ Resolution.winner resolution = 2)
    /\ Resolution.snapshotHash resolution
       = hashJson (JSON_stringify sample_leaderboard).
Proof.
  intros market env run resolution.
  apply (createResolution_signs_its_resolution env sample_leaderboard now
           market resolution (repeat x5a 65) sample_state (snd run)).
  vm_compute. reflexivity.
Defined.

Lemma createResolution_out_of_bounds_witness :
  let market := top10_market "Curve" (now - 100) (Some an_id) in
  let env := test_env "0xkey" contracts_down leaderboard_ok [market] in
  exists t evs,
    fst (createResolution env market sample_leaderboard (-1) sample_state)
    = Throw t
    /\ trace (snd (createResolution env market sample_leaderboard (-1)
                                    sample_state))
       = trace sample_state ++ evs
    /\ Forall (fun e => signs_or_submits e = false) evs.
Proof.
  intros market env.
  apply (createResolution_out_of_bounds env sample_leaderboard (-1) market
           sample_state).
  left. reflexivity.
Defined.

Lemma processMarket_keeps_market_id_witness :
  let market := top10_market "Curve" (now - 100) (Some an_id) in
  let env := test_env "0xkey" contracts_down leaderboard_ok [market] in
  exists evs,
    trace (snd (processMarket env sample_leaderboard now market
                              (mkCounters 0 0) sample_state))
    = trace sample_state ++ evs
    /\ Forall (fun e => is_compute_call e = false) evs.
Proof.
  intros market env.
  apply (processMarket_keeps_market_id env sample_leaderboard now market an_id
           (mkCounters 0 0) sample_state).
  reflexivity.
Defined.


(* ================================================================== *)
(** * Market ids, load failures and dates *)
(* ================================================================== *)

Section MarketIds.
Context {W : Type} (env : Env W).
Variable leaderboardSnapshot : list Project.t.
Variable blockTimestamp : Z.



(** X25. A market whose resolve time cannot be printed as a date (more than
    8.64e15 milliseconds from the epoch) is counted as skipped, ready or
    not: formatting the date for the log throws 'Invalid time value', which
    the catch block takes for a time error.  Nothing leaves the process for
    such a market. *)
Theorem processMarket_invalid_date (market : MarketConfig.t) (c : Counters)
    (s : State W) :
  MarketConfig.resolveTime market * 1000 < - max_time_value
  \/ max_time_value < MarketConfig.resolveTime market * 1000 ->
  processMarket env leaderboardSnapshot blockTimestamp market c s
  = (Ok (mkCounters (processed c) (skipped c + 1)),
     after_console_error s market (Error "Invalid time value")).
Proof.
  intros Hrange.
  assert (Hdate : toISOString (MarketConfig.resolveTime market * 1000)
                  = Throw (Error "Invalid time value")).
  { unfold toISOString.
    destruct (Z.leb_spec (- max_time_value)
                (MarketConfig.resolveTime market * 1000));
      destruct (Z.leb_spec (MarketConfig.resolveTime market * 1000)
                  max_time_value); simpl; try reflexivity; lia. }
  rewrite (processMarket_throw env _ _ _ _ _ _ _
             (tryBody_invalid_date env _ _ market c s Hdate)).
  reflexivity.
Qed.

End MarketIds.

Section LoadFailures.
Context {W : Type} (env : Env W).

(** X26. A run that loads the leaderboard but cannot load the markets stops
    there: the error is thrown after the two fetches, before the signer is
    built and before any call to the chain, and the pipeline exits with
    status 1.  When the API answered with a response that is not ok, the
    error is 'Failed to load markets:' with the status text. *)
Theorem processMarkets_markets_failure (s : State W)
    (leaderboard : list Project.t) (w1 : W) :
  loads_leaderboard env s leaderboard w1 ->
  api_failed (fst (fetch_markets env w1)) ->
  exists t,
    processMarkets env s
    = (Throw t, after_loads s (snd (fetch_markets env w1)))
    /\ fst (main env s) = Exited 1
    /\ (forall response,
          fst (fetch_markets env w1) = Ok response ->
          Http.ok response = false ->
          t = Error ("Failed to load markets: " ++ Http.statusText response)).
Proof.
  intros (r1 & Hf1 & Hok1 & Hj1) Hfailed.
  assert (Hrun :
    exists t,
      processMarkets env s
      = (Throw t, after_loads s (snd (fetch_markets env w1)))
      /\ (forall response,
            fst (fetch_markets env w1) = Ok response ->
            Http.ok response = false ->
            t = Error ("Failed to load markets: " ++ Http.statusText response))).
  { unfold processMarkets, loadLeaderboardSnapshot, loadMarkets, after_loads.
    unfold mbind at 1. unfold mbind at 1. unfold outside at 1.
    rewrite Hf1. cbv beta iota. rewrite Hok1. cbn [negb]. cbv beta iota.
    unfold lift at 1. rewrite Hj1.
    unfold mbind at 1. unfold mbind at 1. unfold outside at 1.
    cbn [world cachedContracts trace].
    rewrite <- app_assoc. cbn [app].
    destruct (fetch_markets env w1) as [[response | t] w2];
      simpl in Hfailed |- *.
    - destruct (Http.ok response) eqn:Hok; simpl.
      + destruct Hfailed as [Hno | [t Hjson]]; [discriminate|].
        unfold lift. rewrite Hjson.
        exists t. split; [reflexivity|].
        intros r Hr Hno. inversion Hr. subst. congruence.
      + eexists. split; [reflexivity|].
        intros r Hr _. inversion Hr. now subst.
    - exists t. split; [reflexivity|].
      intros r Hr. discriminate. }
  destruct Hrun as (t & Hrun & Hmessage).
  exists t. split; [exact Hrun|]. split; [|exact Hmessage].
  unfold main. now rewrite Hrun.
Qed.

(** X27. One fatal market ends the pipeline: in a run whose loads, signer
    and block succeeded, when the processing of the first market throws an
    error that is not a time error, the markets after it are not
    processed, no summary is printed, the error is printed twice (by the
    loop and by the entry point) and the process exits with status 1. *)
Theorem main_exits_on_fatal_market (s s1 : State W)
    (leaderboard : list Project.t) (market : MarketConfig.t)
    (rest : list MarketConfig.t) (w2 w3 : W) (blockTimestamp : Z)
    (t : thrown) :
  loads env s leaderboard (market :: rest) w2 ->
  getSigner env (after_loads s w2) = (Ok tt, after_loads s w2) ->
  provider_getBlock env w2 = (Ok (Some blockTimestamp), w3) ->
  tryBody env leaderboard blockTimestamp market (mkCounters 0 0)
          (loop_start s w3) = (Throw t, s1) ->
  is_time_error t = false ->
  main env s
  = (Exited 1,
     mkState (world s1) (cachedContracts s1)
       (trace s1
        ++ [ConsoleError ("Error processing market "
                          ++ MarketConfig.questionHash market ++ ":") t;
            ConsoleError "❌ Oracle pipeline failed:" t])).
Proof.
  intros Hloads Hsigner Hblock Hbody Hkind.
  unfold main.
  rewrite (processMarkets_after_loads env s leaderboard (market :: rest) w2
             Hloads).
  unfold mbind at 1. rewrite Hsigner.
  unfold mbind at 1, outside at 1.
  cbn [after_loads world cachedContracts trace].
  rewrite Hblock.
  unfold mbind at 1, ret at 1.
  unfold mbind at 1.
  rewrite <- app_assoc. cbn [app].
  fold (loop_start s w3).
  rewrite processLoop_cons, (processMarket_throw env _ _ _ _ _ _ _ Hbody), Hkind.
  unfold after_console_error. simpl.
  now rewrite <- app_assoc.
Qed.

End LoadFailures.


Lemma processMarket_invalid_date_witness :
  let market := top10_market "Curve" 9000000000000 (Some an_id) in
  let env := test_env "0xkey" contracts_down leaderboard_ok [market] in
  processMarket env sample_leaderboard now market (mkCounters 0 0) sample_state
  = (Ok (mkCounters 0 1),
     after_console_error sample_state market (Error "Invalid time value")).
Proof.
  intros market env.
  apply (processMarket_invalid_date env sample_leaderboard now market
           (mkCounters 0 0) sample_state).
  right. reflexivity.
Defined.

Lemma processMarkets_markets_failure_witness :
  let env :=
    test_env_markets (Ok (Http.mk false "Bad Gateway" (Ok [])))
                     (Ok "0xtx"%string) in
  exists t,
    processMarkets env sample_state
    = (Throw t, after_loads sample_state (snd (fetch_markets env O)))
    /\ fst (main env sample_state) = Exited 1
    /\ (forall response,
          fst (fetch_markets env O) = Ok response ->
          Http.ok response = false ->
          t = Error ("Failed to load markets: " ++ Http.statusText response)).
Proof.
  intros env.
  apply (processMarkets_markets_failure env sample_state sample_leaderboard O).
  - eexists. repeat split.
  - left. reflexivity.
Defined.

Lemma main_exits_on_fatal_market_witness :
  let bad := top10_market "Foo" (now - 100) (Some an_id) in
  let good := top10_market "Curve" (now - 100) (Some an_id) in
  let env := test_env "0xkey" contracts_down leaderboard_ok [bad; good] in
  let t := Error "Project Foo not found in leaderboard" in
  main env sample_state
  = (Exited 1,
     mkState O (Some sample_addresses)
       [Fetch "/api/leaderboard/today"; Fetch "/api/markets"; GetBlock;
        ConsoleError ("Error processing market " ++ question_hash "Foo" ++ ":") t;
        ConsoleError "❌ Oracle pipeline failed:" t]).
Proof.
  intros bad good env t.
  apply (main_exits_on_fatal_market env sample_state
           (loop_start sample_state O) sample_leaderboard bad [good] O O now t).
  - apply sample_loads.
  - reflexivity.
  - reflexivity.
  - vm_compute. reflexivity.
  - reflexivity.
Defined.
